(** * devTinder front end: chat synchronisation, presence and discovery

  A shallow embedding of the client-side logic of the devTinder front end
  (React components written in TypeScript):

  - [SocketContext]  the real-time channel manager (set of online ids);
  - [Dashboard]      the discovery feed ([handleSwipe], [getOnlineStatus]);
  - [Matches]        the conversation list ([getOnlineStatus]);
  - [Chat]           the chat screen (history fetch, live events, typing
                     debounce, send path, date separators).

  React state is modelled by explicit state passing: a component is a
  record of its [useState] cells, an event handler is a function from the
  state of the render it was created in to the new state and the list of
  effects it issued (API calls, socket emissions, toasts, timers).  An
  [async] handler is split at its [await]: the part before it, and the
  continuation that runs on the response. *)

From Stdlib Require Import ZArith List String Ascii Bool Lia DecimalString Sorted.
Import ListNotations.
Open Scope string_scope.
Open Scope Z_scope.

(** ** JavaScript values used by the components *)

Module Js.

(** A number that is an integer or [NaN]: time values of a [Date]
    (milliseconds since the epoch, [NaN] for an invalid date) and the
    whole numbers computed from them. *)
Inductive Num : Type :=
| Int (n : Z)
| NaN.

(** [a - b] *)
Definition sub (a b : Num) : Num :=
  match a, b with
  | Int x, Int y => Int (x - y)
  | _, _ => NaN
  end.

(** [Math.floor(a / k)] for a positive integer constant [k]. *)
Definition floorDiv (a : Num) (k : Z) : Num :=
  match a with
  | Int x => Int (x / k)
  | NaN => NaN
  end.

(** [a < k]; every comparison with [NaN] is false. *)
Definition lt (a : Num) (k : Z) : bool :=
  match a with
  | Int x => x <? k
  | NaN => false
  end.

(** [String(n)], as interpolated by a template literal: decimal digits,
    with a minus sign for negatives. *)
Definition numToString (n : Num) : string :=
  match n with
  | Int x => NilZero.string_of_int (Z.to_int x)
  | NaN => "NaN"
  end.

(** Truthiness of an optional boolean and of an optional string. *)
Definition truthyBool (b : option bool) : bool :=
  match b with Some true => true | _ => false end.

Definition truthyString (s : option string) : option string :=
  match s with
  | Some s' => if String.eqb s' "" then None else Some s'
  | None => None
  end.

(** Strict equality [===] on strings, and on possibly undefined strings. *)
Definition strictEq (a b : string) : bool := String.eqb a b.

Definition strictEqOpt (a b : option string) : bool :=
  match a, b with
  | Some x, Some y => String.eqb x y
  | None, None => true
  | _, _ => false
  end.

(** White space removed by [String.prototype.trim], for strings modelled
    with one [ascii] per code unit: TAB, LF, VT, FF, CR, SP and NBSP. *)
Definition isWhiteSpace (c : ascii) : bool :=
  let n := nat_of_ascii c in
  ((9 <=? n) && (n <=? 13) || (n =? 32) || (n =? 160))%nat.

Fixpoint trimStart (s : string) : string :=
  match s with
  | EmptyString => EmptyString
  | String c s' => if isWhiteSpace c then trimStart s' else s
  end.

Fixpoint trimEnd (s : string) : string :=
  match s with
  | EmptyString => EmptyString
  | String c s' =>
      let r := trimEnd s' in
      if isWhiteSpace c && String.eqb r "" then EmptyString else String c r
  end.

Definition trim (s : string) : string := trimEnd (trimStart s).

(** [a[i]] for a numeric index: [undefined] out of range. *)
Definition index {A : Type} (a : list A) (i : Z) : option A :=
  if i <? 0 then None else nth_error a (Z.to_nat i).

(** [a.map((x, i) => f(x, i))] *)
Fixpoint mapiFrom {A B : Type} (f : A -> Z -> B) (i : Z) (a : list A) : list B :=
  match a with
  | [] => []
  | x :: a' => f x i :: mapiFrom f (i + 1) a'
  end.

Definition mapi {A B : Type} (f : A -> Z -> B) (a : list A) : list B :=
  mapiFrom f 0 a.

(** The value of [d.toDateString()]: the text "Www Mmm dd yyyy" names
    one calendar day of the local time zone, so it is represented by the
    number of that day; an invalid date prints as "Invalid Date". *)
Inductive DateString : Type :=
| DayString (day : Z)
| InvalidDate.

Definition dateStringEq (a b : DateString) : bool :=
  match a, b with
  | DayString x, DayString y => x =? y
  | InvalidDate, InvalidDate => true
  | _, _ => false
  end.

Definition msPerDay : Z := 86400000.

(** What the components use of the host: parsing of a date string
    ([new Date(s).getTime()]), the offset of local time from UTC at a
    given instant, and the locale's date format. *)
Class Host : Type := {
  Date_parse : string -> Num;
  LocalTZA : Z -> Z;
  toLocaleDateString : Num -> string
}.

Section Dates.
Context {host : Host}.

(** The local calendar day, counted from the epoch, of an instant. *)
Definition localDay (t : Z) : Z := (t + LocalTZA t) / msPerDay.

Definition toDateString (d : Num) : DateString :=
  match d with
  | Int t => DayString (localDay t)
  | NaN => InvalidDate
  end.

(** [y = new Date(today); y.setDate(y.getDate() - 1); y.toDateString()]:
    the calendar day before the local day of [today]. *)
Definition dayBefore (today : Z) : DateString :=
  DayString (localDay today - 1).
End Dates.

(** A host whose local time is UTC, reading a date string as a decimal
    number of milliseconds (used to evaluate the components). *)
Definition digitsToZ (s : string) : Num :=
  match NilZero.int_of_string s with
  | Some d => Int (Z.of_int d)
  | None => NaN
  end.

Definition utcHost : Host :=
  {| Date_parse := digitsToZ;
     LocalTZA := fun _ => 0;
     toLocaleDateString := fun d => numToString d |}.

(** The fields read by the three [getOnlineStatus] functions. *)
Record Presence : Type := {
  isOnline : option bool;
  lastSeen : option string
}.

(** [s.startsWith(prefix)] *)
Fixpoint startsWith (s prefix : string) {struct prefix} : bool :=
  match prefix with
  | EmptyString => true
  | String a prefix' =>
      match s with
      | EmptyString => false
      | String b s' => Ascii.eqb b a && startsWith s' prefix'
      end
  end.

(** [s.split(sep)] for a separator of one code unit: the pieces between
    the separators, a single empty piece for the empty string. *)
Fixpoint split (sep : ascii) (s : string) : list string :=
  match s with
  | EmptyString => [EmptyString]
  | String c s' =>
      if Ascii.eqb c sep then EmptyString :: split sep s'
      else match split sep s' with
           | piece :: pieces => String c piece :: pieces
           | [] => [String c EmptyString]
           end
  end.

(** [a.join(sep)] *)
Definition join (sep : string) (a : list string) : string := String.concat sep a.

(** The last code unit of a string, if any. *)
Fixpoint lastChar (s : string) : option ascii :=
  match s with
  | EmptyString => None
  | String c EmptyString => Some c
  | String _ s' => lastChar s'
  end.

End Js.

(** ** Real-time channel manager (SocketContext) *)

Module SocketContext.

(** [onlineUsers] is a [string[]] state cell, initially empty. *)
Definition onlineUsers_init : list string := [].

(** [prev => [...prev.filter(id => id !== userId), userId]] *)
Definition user_online (userId : string) (prev : list string) : list string :=
  (filter (fun id => negb (Js.strictEq id userId)) prev ++ [userId])%list.

(** [prev => prev.filter(id => id !== userId)] *)
Definition user_offline (userId : string) (prev : list string) : list string :=
  filter (fun id => negb (Js.strictEq id userId)) prev.

Inductive PresenceEvent : Type :=
| UserOnline (userId : string)
| UserOffline (userId : string).

Definition onPresence (prev : list string) (e : PresenceEvent) : list string :=
  match e with
  | UserOnline u => user_online u prev
  | UserOffline u => user_offline u prev
  end.

(** The state after a sequence of events, received in order. *)
Definition runPresence (es : list PresenceEvent) : list string :=
  fold_left onPresence es onlineUsers_init.

End SocketContext.

(** ** Discovery feed (Dashboard) *)

Module Dashboard.

Record PotentialMatch : Type := {
  pm_id : string;
  firstName : string;
  lastName : string;
  age : Z;
  presence : Js.Presence
}.

Record FilterOptions : Type := {
  minAge : string;
  maxAge : string;
  skills : string;
  experienceLevel : string;
  location : string;
  lookingFor : string
}.

Definition noFilters : FilterOptions :=
  {| minAge := ""; maxAge := ""; skills := ""; experienceLevel := "";
     location := ""; lookingFor := "" |}.

Inductive Action : Type := like | pass.

(** The [useState] cells of the component. *)
Record State : Type := {
  potentialMatches : list PotentialMatch;
  currentIndex : Z;
  loading : bool;
  swiping : bool;
  showFilters : bool;
  filters : FilterOptions
}.

Definition init : State :=
  {| potentialMatches := []; currentIndex := 0; loading := true;
     swiping := false; showFilters := false; filters := noFilters |}.

Definition setPotentialMatches (v : list PotentialMatch) (st : State) : State :=
  {| potentialMatches := v; currentIndex := currentIndex st;
     loading := loading st; swiping := swiping st;
     showFilters := showFilters st; filters := filters st |}.

Definition setCurrentIndex (v : Z) (st : State) : State :=
  {| potentialMatches := potentialMatches st; currentIndex := v;
     loading := loading st; swiping := swiping st;
     showFilters := showFilters st; filters := filters st |}.

Definition setLoading (v : bool) (st : State) : State :=
  {| potentialMatches := potentialMatches st; currentIndex := currentIndex st;
     loading := v; swiping := swiping st;
     showFilters := showFilters st; filters := filters st |}.

Definition setSwiping (v : bool) (st : State) : State :=
  {| potentialMatches := potentialMatches st; currentIndex := currentIndex st;
     loading := loading st; swiping := v;
     showFilters := showFilters st; filters := filters st |}.

(** What a handler does to the outside world. *)
Inductive Effect : Type :=
| ApiGetPotentialMatches (query : list (string * string))
| ApiPostSwipe (targetUserId : string) (action : Action)
| ToastSuccess (message : string)
| ToastError (message : string)
| ConsoleError (message : string).

Definition isRefetch (e : Effect) : bool :=
  match e with
  | ApiGetPotentialMatches _ => true
  | _ => false
  end.

(** Responses of the two endpoints; a rejected request carries the
    optional [error.response?.data?.message]. *)
Inductive FetchResponse : Type :=
| FetchOk (data : list PotentialMatch)
| FetchFailed.

Inductive SwipeResponse : Type :=
| SwipeOk (isMatch : bool)
| SwipeFailed (message : option string).

(** [Object.entries(filterParams).forEach(([key, value]) =>
      { if (value) params.append(key, value) })] *)
Definition searchParams (filterParams : option FilterOptions)
  : list (string * string) :=
  match filterParams with
  | None => []
  | Some f =>
      filter (fun kv => negb (String.eqb (snd kv) ""))
        [("minAge", minAge f); ("maxAge", maxAge f); ("skills", skills f);
         ("experienceLevel", experienceLevel f); ("location", location f);
         ("lookingFor", lookingFor f)]
  end.

(** [fetchPotentialMatches], up to its [await] ... *)
Definition fetchPotentialMatches (filterParams : option FilterOptions) : Effect :=
  ApiGetPotentialMatches (searchParams filterParams).

(** ... and from the response on. *)
Definition fetchPotentialMatches_resolved (r : FetchResponse) (st : State)
  : State * list Effect :=
  match r with
  | FetchOk data =>
      (setLoading false (setCurrentIndex 0 (setPotentialMatches data st)), [])
  | FetchFailed =>
      (setLoading false st,
       [ConsoleError "Error fetching matches:";
        ToastError "Failed to load potential matches"])
  end.

(** The text of the match toast (the source prefixes it with an emoji). *)
Definition matchToast : string :=
  "It's a match! You can now chat with each other!".

(** How far a call of [handleSwipe] got before its first [await]. *)
Inductive Begun : Type :=
| Returned
| Awaiting (st : State) (fx : list Effect)
| Finished (st : State) (fx : list Effect).

(** [handleSwipe] up to the [await] of the swipe request.  [Returned]: the
    guard returned; [Awaiting]: the request was issued for the current
    candidate; [Finished]: there is no current candidate, reading its
    [_id] threw inside the [try], and [catch] and [finally] ran. *)
Definition handleSwipe_begin (action : Action) (st : State) : Begun :=
  if swiping st || (Z.of_nat (List.length (potentialMatches st)) <=? currentIndex st)
  then Returned
  else
    match Js.index (potentialMatches st) (currentIndex st) with
    | Some currentUser =>
        Awaiting (setSwiping true st) [ApiPostSwipe (pm_id currentUser) action]
    | None =>
        Finished (setSwiping false (setSwiping true st)) [ToastError "Swipe failed"]
    end.

(** The continuation of [handleSwipe] on the swipe response.  [render] is
    the state of the render in which the handler was created (its closure
    reads [currentIndex], [potentialMatches] and [filters] there); [st] is
    the state the setters act on.  The boolean tells whether the handler
    now awaits [fetchPotentialMatches(filters)]. *)
Definition handleSwipe_swiped (render : State) (r : SwipeResponse) (st : State)
  : State * list Effect * bool :=
  match r with
  | SwipeOk isMatch =>
      let toast := if isMatch then [ToastSuccess matchToast] else [] in
      if currentIndex render <? Z.of_nat (List.length (potentialMatches render)) - 1
      then (setSwiping false (setCurrentIndex (currentIndex render + 1) st),
            toast, false)
      else (st, (toast ++ [fetchPotentialMatches (Some (filters render))])%list,
            true)
  | SwipeFailed message =>
      let text := match Js.truthyString message with
                  | Some m => m
                  | None => "Swipe failed"
                  end in
      (setSwiping false st, [ToastError text], false)
  end.

(** The end of [handleSwipe] when it awaited the refetch. *)
Definition handleSwipe_refetched (r : FetchResponse) (st : State)
  : State * list Effect :=
  let '(st1, fx) := fetchPotentialMatches_resolved r st in
  (setSwiping false st1, fx).

(** One whole call of [handleSwipe] with no other event in between, given
    the responses of the swipe request and of the refetch (read only when
    the refetch is issued). *)
Definition handleSwipe (action : Action) (swipe : SwipeResponse)
  (refetch : FetchResponse) (st : State) : State * list Effect :=
  match handleSwipe_begin action st with
  | Returned => (st, [])
  | Finished st1 fx1 => (st1, fx1)
  | Awaiting st1 fx1 =>
      let '(st2, fx2, awaiting) := handleSwipe_swiped st swipe st1 in
      if awaiting
      then let '(st3, fx3) := handleSwipe_refetched refetch st2 in
           (st3, (fx1 ++ fx2 ++ fx3)%list)
      else (st2, (fx1 ++ fx2)%list)
  end.

(** *** Filters *)

(** [keyof FilterOptions] *)
Inductive FilterKey : Type :=
| kMinAge | kMaxAge | kSkills | kExperienceLevel | kLocation | kLookingFor.

(** The name of a key, as [Object.entries] lists it. *)
Definition keyName (key : FilterKey) : string :=
  match key with
  | kMinAge => "minAge"
  | kMaxAge => "maxAge"
  | kSkills => "skills"
  | kExperienceLevel => "experienceLevel"
  | kLocation => "location"
  | kLookingFor => "lookingFor"
  end.

Definition getFilter (key : FilterKey) (f : FilterOptions) : string :=
  match key with
  | kMinAge => minAge f
  | kMaxAge => maxAge f
  | kSkills => skills f
  | kExperienceLevel => experienceLevel f
  | kLocation => location f
  | kLookingFor => lookingFor f
  end.

(** [{ ...prev, [key]: value }] *)
Definition withFilter (key : FilterKey) (value : string) (prev : FilterOptions)
  : FilterOptions :=
  {| minAge := match key with kMinAge => value | _ => minAge prev end;
     maxAge := match key with kMaxAge => value | _ => maxAge prev end;
     skills := match key with kSkills => value | _ => skills prev end;
     experienceLevel :=
       match key with kExperienceLevel => value | _ => experienceLevel prev end;
     location := match key with kLocation => value | _ => location prev end;
     lookingFor := match key with kLookingFor => value | _ => lookingFor prev end |}.

Definition setFilters (f : FilterOptions -> FilterOptions) (st : State) : State :=
  {| potentialMatches := potentialMatches st; currentIndex := currentIndex st;
     loading := loading st; swiping := swiping st;
     showFilters := showFilters st; filters := f (filters st) |}.

Definition setShowFilters (v : bool) (st : State) : State :=
  {| potentialMatches := potentialMatches st; currentIndex := currentIndex st;
     loading := loading st; swiping := swiping st;
     showFilters := v; filters := filters st |}.

Definition handleFilterChange (key : FilterKey) (value : string) (st : State)
  : State :=
  setFilters (withFilter key value) st.

(** [applyFilters], [clearFilters] and the Refresh button, each up to the
    [await] inside [fetchPotentialMatches]. *)
Definition applyFilters (st : State) : State * list Effect :=
  (setShowFilters false (setLoading true st),
   [fetchPotentialMatches (Some (filters st))]).

Definition clearFilters (st : State) : State * list Effect :=
  (setShowFilters false (setLoading true (setFilters (fun _ => noFilters) st)),
   [fetchPotentialMatches None]).

Definition refresh (st : State) : State * list Effect :=
  (st, [fetchPotentialMatches None]).

(** The screen shows "No more profiles!" instead of a card. *)
Definition noMoreProfiles (st : State) : bool :=
  (Z.of_nat (List.length (potentialMatches st)) =? 0)
  || (Z.of_nat (List.length (potentialMatches st)) <=? currentIndex st).

(** *** The feed as a transition system *)

(** What can happen to the discovery feed, each call of [handleSwipe]
    running to its end before the next event. *)
Inductive Event : Type :=
| Mounted
| FetchResolved (r : FetchResponse)
| Swiped (action : Action) (swipe : SwipeResponse) (refetch : FetchResponse)
| FilterChanged (key : FilterKey) (value : string)
| FiltersOpened
| ApplyClicked
| ClearClicked
| RefreshClicked.

Definition step (st : State) (ev : Event) : State :=
  match ev with
  | Mounted => st
  | FetchResolved r => fst (fetchPotentialMatches_resolved r st)
  | Swiped action swipe refetch => fst (handleSwipe action swipe refetch st)
  | FilterChanged key value => handleFilterChange key value st
  | FiltersOpened => setShowFilters true st
  | ApplyClicked => fst (applyFilters st)
  | ClearClicked => fst (clearFilters st)
  | RefreshClicked => fst (refresh st)
  end.

Definition run (evs : list Event) (st : State) : State :=
  fold_left step evs st.

Section Status.
Context {host : Js.Host}.

(** [getOnlineStatus] of the discovery card. *)
Definition getOnlineStatus (now : Z) (user : Js.Presence) : string :=
  if Js.truthyBool (Js.isOnline user) then "Online"
  else
    match Js.truthyString (Js.lastSeen user) with
    | Some ls =>
        let lastSeen := Js.Date_parse ls in
        let diffInMinutes := Js.floorDiv (Js.sub (Js.Int now) lastSeen) (1000 * 60) in
        if Js.lt diffInMinutes 60
        then Js.numToString diffInMinutes ++ "m ago"
        else if Js.lt diffInMinutes 1440
        then Js.numToString (Js.floorDiv diffInMinutes 60) ++ "h ago"
        else Js.numToString (Js.floorDiv diffInMinutes 1440) ++ "d ago"
    | None => "Offline"
    end.

End Status.

End Dashboard.

(** ** Conversation list (Matches) *)

Module Matches.

Record Status : Type := { text : string; color : string }.

Record Match : Type := {
  match_id : string;
  match_firstName : string;
  match_lastName : string;
  match_presence : Js.Presence
}.

Record Participant : Type := {
  participant_id : string;
  participant_firstName : string;
  participant_presence : Js.Presence
}.

Record Chat : Type := {
  chat_id : string;
  participants : list Participant;
  unreadCount : option Z
}.

Inductive Tab : Type := matchesTab | chatsTab.

Record State : Type := {
  matches : list Match;
  chats : list Chat;
  loading : bool;
  activeTab : Tab
}.

Definition init : State :=
  {| matches := []; chats := []; loading := true; activeTab := matchesTab |}.

Inductive Effect : Type :=
| ApiGetMyMatches
| ApiGetMyChats
| ToastError (message : string)
| ConsoleError (message : string)
| Navigate (path : string).

(** [fetchData] up to the [await] of [Promise.all] ... *)
Definition fetchData : list Effect := [ApiGetMyMatches; ApiGetMyChats].

(** ... and from then on; [None] is a rejected request. *)
Definition fetchData_resolved (matchesResponse : option (list Match))
  (chatsResponse : option (list Chat)) (st : State) : State * list Effect :=
  match matchesResponse, chatsResponse with
  | Some ms, Some cs =>
      ({| matches := ms; chats := cs; loading := false;
          activeTab := activeTab st |}, [])
  | _, _ =>
      ({| matches := matches st; chats := chats st; loading := false;
          activeTab := activeTab st |},
       [ConsoleError "Error fetching data:";
        ToastError "Failed to load matches and chats"])
  end.

Definition handleChatClick (chatId : string) : Effect :=
  Navigate ("/chat/" ++ chatId).

(** [chat.participants[0]] *)
Definition getOtherParticipant (chat : Chat) : option Participant :=
  Js.index (participants chat) 0.

(** [chat.unreadCount || 0] *)
Definition unreadOrZero (chat : Chat) : Z :=
  match unreadCount chat with
  | Some n => if n =? 0 then 0 else n
  | None => 0
  end.

(** [chats.reduce((total, chat) => total + (chat.unreadCount || 0), 0)] *)
Definition getTotalUnreadCount (chats : list Chat) : Z :=
  fold_left (fun total chat => total + unreadOrZero chat) chats 0.

(** The Message button of a match card. *)
Definition messageClick (chats : list Chat) (m : Match) : Effect :=
  let existingChat :=
    find (fun chat =>
            existsb (fun p => Js.strictEq (participant_id p) (match_id m))
              (participants chat))
      chats in
  match existingChat with
  | Some chat => handleChatClick (chat_id chat)
  | None => ToastError "Chat not available yet"
  end.

Section Status.
Context {host : Js.Host}.

(** [getOnlineStatus] of the conversation list: the text and its colour. *)
Definition getOnlineStatus (now : Z) (user : Js.Presence) : Status :=
  if Js.truthyBool (Js.isOnline user)
  then {| text := "Online"; color := "text-green-600" |}
  else
    match Js.truthyString (Js.lastSeen user) with
    | Some ls =>
        let lastSeen := Js.Date_parse ls in
        let diffInMinutes := Js.floorDiv (Js.sub (Js.Int now) lastSeen) (1000 * 60) in
        if Js.lt diffInMinutes 60
        then {| text := Js.numToString diffInMinutes ++ "m ago";
                color := "text-gray-500" |}
        else if Js.lt diffInMinutes 1440
        then {| text := Js.numToString (Js.floorDiv diffInMinutes 60) ++ "h ago";
                color := "text-gray-500" |}
        else {| text := Js.numToString (Js.floorDiv diffInMinutes 1440) ++ "d ago";
                color := "text-gray-500" |}
    | None => {| text := "Offline"; color := "text-gray-500" |}
    end.

End Status.

End Matches.

(** ** Chat screen (Chat) *)

Module Chat.

Record Sender : Type := {
  sender_id : string;
  firstName : string;
  lastName : string;
  profilePicture : option string
}.

Record Message : Type := {
  msg_id : string;
  sender : Sender;
  content : string;
  timestamp : string;
  read : option bool;
  readAt : option string
}.

Record Participant : Type := {
  participant_id : string;
  participant_name : string;
  presence : Js.Presence
}.

Record ChatData : Type := {
  chat_id : string;
  participants : list Participant;
  messages : list Message
}.

(** What the component reads from its surroundings: the route parameter
    [chatId], whether the socket context holds a socket, and [user?.id]. *)
Record Props : Type := {
  chatId : option string;
  socket : bool;
  userId : option string
}.

(** The armed idle timer behind [typingTimeoutRef.current]: when it is
    due, and the value of [typing] its callback closed over. *)
Record Timeout : Type := {
  due : Z;
  closure_typing : bool
}.

(** The [useState] cells of the component, the pending idle timer, and
    whether the three socket listeners of the screen are registered. *)
Record State : Type := {
  chat : option ChatData;
  newMessage : string;
  loading : bool;
  sending : bool;
  typing : bool;
  otherUserTyping : bool;
  typingTimeout : option Timeout;
  listening : bool
}.

Definition init : State :=
  {| chat := None; newMessage := ""; loading := true; sending := false;
     typing := false; otherUserTyping := false; typingTimeout := None;
     listening := false |}.

Definition setChat (f : option ChatData -> option ChatData) (st : State) : State :=
  {| chat := f (chat st); newMessage := newMessage st; loading := loading st;
     sending := sending st; typing := typing st;
     otherUserTyping := otherUserTyping st;
     typingTimeout := typingTimeout st; listening := listening st |}.

Definition setNewMessage (v : string) (st : State) : State :=
  {| chat := chat st; newMessage := v; loading := loading st;
     sending := sending st; typing := typing st;
     otherUserTyping := otherUserTyping st;
     typingTimeout := typingTimeout st; listening := listening st |}.

Definition setLoading (v : bool) (st : State) : State :=
  {| chat := chat st; newMessage := newMessage st; loading := v;
     sending := sending st; typing := typing st;
     otherUserTyping := otherUserTyping st;
     typingTimeout := typingTimeout st; listening := listening st |}.

Definition setSending (v : bool) (st : State) : State :=
  {| chat := chat st; newMessage := newMessage st; loading := loading st;
     sending := v; typing := typing st;
     otherUserTyping := otherUserTyping st;
     typingTimeout := typingTimeout st; listening := listening st |}.

Definition setTyping (v : bool) (st : State) : State :=
  {| chat := chat st; newMessage := newMessage st; loading := loading st;
     sending := sending st; typing := v;
     otherUserTyping := otherUserTyping st;
     typingTimeout := typingTimeout st; listening := listening st |}.

Definition setOtherUserTyping (v : bool) (st : State) : State :=
  {| chat := chat st; newMessage := newMessage st; loading := loading st;
     sending := sending st; typing := typing st;
     otherUserTyping := v;
     typingTimeout := typingTimeout st; listening := listening st |}.

Definition setTypingTimeout (v : option Timeout) (st : State) : State :=
  {| chat := chat st; newMessage := newMessage st; loading := loading st;
     sending := sending st; typing := typing st;
     otherUserTyping := otherUserTyping st;
     typingTimeout := v; listening := listening st |}.

Definition setListening (v : bool) (st : State) : State :=
  {| chat := chat st; newMessage := newMessage st; loading := loading st;
     sending := sending st; typing := typing st;
     otherUserTyping := otherUserTyping st;
     typingTimeout := typingTimeout st; listening := v |}.

(** The messages on screen, when a conversation is loaded. *)
Definition timeline (st : State) : option (list Message) :=
  option_map messages (chat st).

(** What a handler does to the outside world. *)
Inductive Effect : Type :=
| ApiGetMessages (chatId : string)
| ApiPostMessage (chatId : string) (content : string)
| Emit_join_chat (chatId : string)
| Emit_typing_start (chatId : string)
| Emit_typing_stop (chatId : string)
| Emit_send_message (chatId : string) (message : string)
| ToastError (message : string)
| ConsoleError (message : string)
| Navigate (path : string)
| PreventDefault.

Definition isApiCall (e : Effect) : bool :=
  match e with
  | ApiGetMessages _ | ApiPostMessage _ _ => true
  | _ => false
  end.

Definition isEmission (e : Effect) : bool :=
  match e with
  | Emit_join_chat _ | Emit_typing_start _ | Emit_typing_stop _
  | Emit_send_message _ _ => true
  | _ => false
  end.

(** Payloads of the incoming socket events. *)
Record ReceiveMessageData : Type := {
  rm_chatId : string;
  rm_sender : string;
  rm_message : string;
  rm_timestamp : string
}.

Record TypingData : Type := {
  td_chatId : string;
  td_userId : option string
}.

Inductive SocketEvent : Type :=
| receive_message (data : ReceiveMessageData)
| user_typing (data : TypingData)
| user_stop_typing (data : TypingData).

Inductive FetchResponse : Type :=
| FetchOk (data : ChatData)
| FetchFailed.

Inductive PostResponse : Type :=
| PostOk (data : Message)
| PostFailed.

(** *** History fetch and subscription *)

(** [prev => prev ? { ...prev, messages: [...prev.messages, m] } : null] *)
Definition appendMessage (m : Message) (prev : option ChatData) : option ChatData :=
  match prev with
  | Some c =>
      Some {| chat_id := chat_id c; participants := participants c;
              messages := (messages c ++ [m])%list |}
  | None => None
  end.

(** [fetchChat] up to its [await] ... *)
Definition fetchChat (chatId : string) : Effect := ApiGetMessages chatId.

(** ... and from the response on. *)
Definition fetchChat_resolved (r : FetchResponse) (st : State)
  : State * list Effect :=
  match r with
  | FetchOk data => (setLoading false (setChat (fun _ => Some data) st), [])
  | FetchFailed =>
      (setLoading false st,
       [ConsoleError "Error fetching chat:"; ToastError "Failed to load chat";
        Navigate "/matches"])
  end.

(** The effects of the first render, in the order of their [useEffect]s:
    the fetch effect, then the subscription effect. *)
Definition fetchEffect (p : Props) : list Effect :=
  match Js.truthyString (chatId p) with
  | Some c => [fetchChat c]
  | None => []
  end.

Definition subscriptionEffect (p : Props) (st : State) : State * list Effect :=
  match socket p, Js.truthyString (chatId p) with
  | true, Some c => (setListening true st, [Emit_join_chat c])
  | _, _ => (st, [])
  end.

Definition mount (p : Props) (st : State) : State * list Effect :=
  let fx1 := fetchEffect p in
  let '(st2, fx2) := subscriptionEffect p st in
  (st2, (fx1 ++ fx2)%list).

(** The cleanup of the subscription effect: [socket.off] of the three events. *)
Definition unsubscribe (st : State) : State := setListening false st.

(** The message built by the [receive_message] listener from the pushed
    payload; [now] is [Date.now()]. *)
Definition liveMessage (now : Z) (data : ReceiveMessageData) : Message :=
  {| msg_id := Js.numToString (Js.Int now);
     sender := {| sender_id := rm_sender data; firstName := "User";
                  lastName := ""; profilePicture := None |};
     content := rm_message data;
     timestamp := rm_timestamp data;
     read := None; readAt := None |}.

(** The [receive_message] listener. *)
Definition on_receive_message (p : Props) (now : Z) (data : ReceiveMessageData)
  (st : State) : State :=
  if Js.strictEqOpt (Some (rm_chatId data)) (chatId p)
  then setChat (appendMessage (liveMessage now data)) st
  else st.

(** The [user_typing] and [user_stop_typing] listeners. *)
Definition on_user_typing (p : Props) (data : TypingData) (st : State) : State :=
  if Js.strictEqOpt (Some (td_chatId data)) (chatId p)
     && negb (Js.strictEqOpt (td_userId data) (userId p))
  then setOtherUserTyping true st
  else st.

Definition on_user_stop_typing (p : Props) (data : TypingData) (st : State) : State :=
  if Js.strictEqOpt (Some (td_chatId data)) (chatId p)
     && negb (Js.strictEqOpt (td_userId data) (userId p))
  then setOtherUserTyping false st
  else st.

(** An event arriving on the socket reaches its listener only while the
    listeners are registered. *)
Definition deliver (p : Props) (now : Z) (e : SocketEvent) (st : State) : State :=
  if listening st
  then match e with
       | receive_message data => on_receive_message p now data st
       | user_typing data => on_user_typing p data st
       | user_stop_typing data => on_user_stop_typing p data st
       end
  else st.

(** *** Typing signal *)

(** [handleTyping], called at time [now] from the render whose state is
    [st]: the callback of the new timer closes over [typing] of that
    render. *)
Definition handleTyping (p : Props) (now : Z) (st : State) : State * list Effect :=
  let '(st1, fx) :=
    match negb (typing st) && socket p, Js.truthyString (chatId p) with
    | true, Some c => (setTyping true st, [Emit_typing_start c])
    | _, _ => (st, [])
    end in
  (setTypingTimeout (Some {| due := now + 1000; closure_typing := typing st |}) st1,
   fx).

(** The callback of the idle timer [tm]. *)
Definition typingTimeout_fired (p : Props) (tm : Timeout) (st : State)
  : State * list Effect :=
  let st0 := setTypingTimeout None st in
  match closure_typing tm && socket p, Js.truthyString (chatId p) with
  | true, Some c => (setTyping false st0, [Emit_typing_stop c])
  | _, _ => (st0, [])
  end.

(** [onChange] of the input: [setNewMessage(e.target.value); handleTyping()] *)
Definition onChange (p : Props) (now : Z) (value : string) (st : State)
  : State * list Effect :=
  handleTyping p now (setNewMessage value st).

Definition stamp (t : Z) (fx : list Effect) : list (Z * Effect) :=
  map (fun e => (t, e)) fx.

(** The clock reaches [now]: a pending timer that is due runs, at its due
    time. *)
Definition elapse (p : Props) (now : Z) (st : State) : State * list (Z * Effect) :=
  match typingTimeout st with
  | Some tm =>
      if due tm <=? now
      then let '(st1, fx) := typingTimeout_fired p tm st in (st1, stamp (due tm) fx)
      else (st, [])
  | None => (st, [])
  end.

(** Keystrokes at the given times, each with the new value of the input;
    the log records what was emitted and when. *)
Fixpoint keystrokes (p : Props) (keys : list (Z * string)) (st : State)
  : State * list (Z * Effect) :=
  match keys with
  | [] => (st, [])
  | (t, value) :: rest =>
      let '(st1, log1) := elapse p t st in
      let '(st2, fx) := onChange p t value st1 in
      let '(st3, log3) := keystrokes p rest st2 in
      (st3, (log1 ++ stamp t fx ++ log3)%list)
  end.

(** No further input: the pending timer, if any, runs when it is due. *)
Definition idle (p : Props) (st : State) : State * list (Z * Effect) :=
  match typingTimeout st with
  | Some tm => let '(st1, fx) := typingTimeout_fired p tm st in (st1, stamp (due tm) fx)
  | None => (st, [])
  end.

(** A burst of keystrokes followed by an idle period. *)
Definition typeBurst (p : Props) (keys : list (Z * string)) (st : State)
  : State * list (Z * Effect) :=
  let '(st1, log1) := keystrokes p keys st in
  let '(st2, log2) := idle p st1 in
  (st2, (log1 ++ log2)%list).

(** *** Send path *)

(** What [handleSendMessage] awaits: the conversation id and the trimmed
    content it posted. *)
Record Pending : Type := {
  pending_chatId : string;
  messageContent : string
}.

(** [handleSendMessage] up to the [await] of the post.  [None]: the guard
    returned. *)
Definition handleSendMessage_begin (p : Props) (st : State)
  : State * list Effect * option Pending :=
  match String.eqb (Js.trim (newMessage st)) "" || sending st,
        Js.truthyString (chatId p) with
  | false, Some c =>
      let content := Js.trim (newMessage st) in
      let st1 := setNewMessage "" (setSending true st) in
      let '(st2, fx) :=
        if typing st && socket p
        then (setTyping false st1, [Emit_typing_stop c])
        else (st1, []) in
      (st2, (PreventDefault :: fx ++ [ApiPostMessage c content])%list,
       Some {| pending_chatId := c; messageContent := content |})
  | _, _ => (st, [PreventDefault], None)
  end.

(** The continuation of [handleSendMessage] on the response of the post. *)
Definition handleSendMessage_resolved (p : Props) (k : Pending) (r : PostResponse)
  (st : State) : State * list Effect :=
  match r with
  | PostOk data =>
      (setSending false (setChat (appendMessage data) st),
       if socket p
       then [Emit_send_message (pending_chatId k) (messageContent k)]
       else [])
  | PostFailed =>
      (setSending false (setNewMessage (messageContent k) st),
       [ConsoleError "Error sending message:";
        ToastError "Failed to send message"])
  end.

(** One whole call of [handleSendMessage] with no other event in between. *)
Definition handleSendMessage (p : Props) (r : PostResponse) (st : State)
  : State * list Effect :=
  match handleSendMessage_begin p st with
  | (st1, fx1, Some k) =>
      let '(st2, fx2) := handleSendMessage_resolved p k r st1 in
      (st2, (fx1 ++ fx2)%list)
  | (st1, fx1, None) => (st1, fx1)
  end.

(** *** The screen as a transition system *)

(** What can happen to a mounted chat screen. *)
Inductive Event : Type :=
| Mounted
| FetchResolved (r : FetchResponse)
| Pushed (now : Z) (e : SocketEvent)
| Changed (now : Z) (value : string)
| TimeoutFired
| Submitted
| PostResolved (k : Pending) (r : PostResponse)
| Unmounted.

Definition step (p : Props) (st : State) (ev : Event) : State :=
  match ev with
  | Mounted => fst (mount p st)
  | FetchResolved r => fst (fetchChat_resolved r st)
  | Pushed now e => deliver p now e st
  | Changed now value => fst (onChange p now value st)
  | TimeoutFired => fst (idle p st)
  | Submitted => fst (fst (handleSendMessage_begin p st))
  | PostResolved k r => fst (handleSendMessage_resolved p k r st)
  | Unmounted => unsubscribe st
  end.

Definition run (p : Props) (evs : list Event) (st : State) : State :=
  fold_left (step p) evs st.

(** The effects of one event, and of a sequence of events. *)
Definition stepEffects (p : Props) (st : State) (ev : Event) : list Effect :=
  match ev with
  | Mounted => snd (mount p st)
  | FetchResolved r => snd (fetchChat_resolved r st)
  | Pushed _ _ => []
  | Changed now value => snd (onChange p now value st)
  | TimeoutFired => map snd (snd (idle p st))
  | Submitted => snd (fst (handleSendMessage_begin p st))
  | PostResolved k r => snd (handleSendMessage_resolved p k r st)
  | Unmounted => []
  end.

Fixpoint trace (p : Props) (evs : list Event) (st : State) : list Effect :=
  match evs with
  | [] => []
  | ev :: rest => (stepEffects p st ev ++ trace p rest (step p st ev))%list
  end.

(** [getOtherParticipant] of the chat header; a missing [user?.id] stands
    for no user. *)
Definition getOtherParticipant (p : Props) (st : State) : option Participant :=
  match chat st, userId p with
  | Some c, Some uid =>
      find (fun q => negb (Js.strictEq (participant_id q) uid)) (participants c)
  | _, _ => None
  end.

(** *** Rendering *)

Inductive Node : Type :=
| DateSeparator (label : string)
| Bubble (message : Message) (isOwnMessage : bool).

Section Render.
Context {host : Js.Host}.

Definition formatDateSeparator (now : Z) (timestamp : string) : string :=
  let date := Js.Date_parse timestamp in
  if Js.dateStringEq (Js.toDateString date) (Js.toDateString (Js.Int now))
  then "Today"
  else if Js.dateStringEq (Js.toDateString date) (Js.dayBefore now)
  then "Yesterday"
  else Js.toLocaleDateString date.

Definition shouldShowDateSeparator (currentMessage : Message)
  (previousMessage : option Message) : bool :=
  match previousMessage with
  | None => true
  | Some previous =>
      let currentDate := Js.toDateString (Js.Date_parse (timestamp currentMessage)) in
      let previousDate := Js.toDateString (Js.Date_parse (timestamp previous)) in
      negb (Js.dateStringEq currentDate previousDate)
  end.

(** [getOnlineStatus] of the chat header. *)
Definition getOnlineStatus (now : Z) (user : Js.Presence) : string :=
  if Js.truthyBool (Js.isOnline user) then "Online"
  else
    match Js.truthyString (Js.lastSeen user) with
    | Some ls =>
        let lastSeen := Js.Date_parse ls in
        let diffInMinutes := Js.floorDiv (Js.sub (Js.Int now) lastSeen) (1000 * 60) in
        if Js.lt diffInMinutes 60
        then Js.numToString diffInMinutes ++ "m ago"
        else if Js.lt diffInMinutes 1440
        then Js.numToString (Js.floorDiv diffInMinutes 60) ++ "h ago"
        else Js.numToString (Js.floorDiv diffInMinutes 1440) ++ "d ago"
    | None => "Offline"
    end.

(** [chat.messages.map((message, index) => ...)]: for each message, the
    date separator when [shouldShowDateSeparator] says so, then the bubble. *)
Definition renderMessage (p : Props) (now : Z) (all : list Message)
  (message : Message) (index : Z) : list Node :=
  let isOwnMessage :=
    Js.strictEqOpt (Some (sender_id (sender message))) (userId p) in
  let showDateSeparator :=
    shouldShowDateSeparator message (Js.index all (index - 1)) in
  ((if showDateSeparator
    then [DateSeparator (formatDateSeparator now (timestamp message))]
    else []) ++ [Bubble message isOwnMessage])%list.

Definition renderMessages (p : Props) (now : Z) (all : list Message) : list Node :=
  List.concat (Js.mapi (renderMessage p now all) all).

End Render.

End Chat.

(** ** Routes (App) and page frame (Layout) *)

Module App.

(** What the guards read from [useAuth()]: whether there is a user, and
    whether the session is still loading. *)
Record Auth : Type := {
  user : bool;
  loading : bool
}.

Inductive Page : Type :=
| LoginPage | RegisterPage | DashboardPage | ProfilePage | MatchesPage | ChatPage.

(** The routes of [App]: "/login", "/register", the index of "/",
    "dashboard", "profile", "matches" and "chat/:chatId". *)
Inductive Route : Type :=
| login | register | index | dashboard | profile | matches | chat.

(** What a route element renders: the spinner, a page, or a [Navigate] to
    the route of its literal path. *)
Inductive Outcome : Type :=
| Spinner
| Show (page : Page)
| NavigateTo (route : Route).

Definition ProtectedRoute (a : Auth) (children : Outcome) : Outcome :=
  if loading a then Spinner
  else if user a then children else NavigateTo login.

Definition PublicRoute (a : Auth) (children : Outcome) : Outcome :=
  if loading a then Spinner
  else if user a then NavigateTo dashboard else children.

Definition element (a : Auth) (r : Route) : Outcome :=
  match r with
  | login => PublicRoute a (Show LoginPage)
  | register => PublicRoute a (Show RegisterPage)
  | index => ProtectedRoute a (NavigateTo dashboard)
  | dashboard => ProtectedRoute a (Show DashboardPage)
  | profile => ProtectedRoute a (Show ProfilePage)
  | matches => ProtectedRoute a (Show MatchesPage)
  | chat => ProtectedRoute a (Show ChatPage)
  end.

(** Following at most [fuel] redirects from a route. *)
Fixpoint settle (fuel : nat) (a : Auth) (r : Route) : option Outcome :=
  match element a r with
  | NavigateTo r' =>
      match fuel with
      | O => None
      | S fuel' => settle fuel' a r'
      end
  | o => Some o
  end.

Definition isPublicPage (page : Page) : bool :=
  match page with
  | LoginPage | RegisterPage => true
  | _ => false
  end.

End App.

Module Layout.

(** [location.pathname.startsWith('/chat/')] *)
Definition isChatPage (pathname : string) : bool :=
  Js.startsWith pathname "/chat/".

(** [{!isChatPage && <Navbar />}] *)
Definition showsNavbar (pathname : string) : bool := negb (isChatPage pathname).

End Layout.

(** ** Profile form (Profile) *)

Module Profile.

(** [user?.skills?.join(', ') || ''] *)
Definition skillsText (skills : option (list string)) : string :=
  match skills with
  | Some l => Js.join ", " l
  | None => ""
  end.

(** [formData.skills.split(',').map(skill => skill.trim()).filter(skill => skill)] *)
Definition parseSkills (skills : string) : list string :=
  filter (fun skill => negb (String.eqb skill ""))
    (map Js.trim (Js.split "," skills)).

Record File : Type := {
  file_type : string;
  file_size : Z
}.

Inductive Effect : Type :=
| ApiUploadPicture (file : File)
| ToastError (message : string).

(** [handleImageUpload] up to the [await] of the upload: the new value of
    [uploadingImage] and the effects. *)
Definition handleImageUpload_begin (file : option File) (uploadingImage : bool)
  : bool * list Effect :=
  match file with
  | None => (uploadingImage, [])
  | Some f =>
      if negb (Js.startsWith (file_type f) "image/")
      then (uploadingImage, [ToastError "Please select an image file"])
      else if 5 * 1024 * 1024 <? file_size f
      then (uploadingImage, [ToastError "Image size should be less than 5MB"])
      else (true, [ApiUploadPicture f])
  end.

End Profile.

(** ** The rules as the specification words them *)

Module Spec.

(** The staleness bucketing, for a last-seen instant [m] whole minutes in
    the past. *)
Definition staleness (m : Z) : string :=
  if m <? 60 then Js.numToString (Js.Int m) ++ "m ago"
  else if m <? 1440 then Js.numToString (Js.Int (m / 60)) ++ "h ago"
  else Js.numToString (Js.Int (m / 1440)) ++ "d ago".

(** Keystrokes that follow an event at time [t], each less than one second
    after the one before it. *)
Fixpoint spaced (t : Z) (keys : list (Z * string)) : Prop :=
  match keys with
  | [] => True
  | (t', _) :: rest => t <= t' < t + 1000 /\ spaced t' rest
  end.

(** The time of the last of them ([t] when there is none). *)
Fixpoint lastTime (t : Z) (keys : list (Z * string)) : Z :=
  match keys with
  | [] => t
  | (t', _) :: rest => lastTime t' rest
  end.

Section ByDay.
Context {host : Js.Host}.

(** The calendar day of a message, in the viewer's time zone. *)
Definition dayOf (m : Chat.Message) : Js.DateString :=
  Js.toDateString (Js.Date_parse (Chat.timestamp m)).

(** [a] is not later than [b]; both timestamps are valid. *)
Definition notLater (a b : Chat.Message) : Prop :=
  match Js.Date_parse (Chat.timestamp a), Js.Date_parse (Chat.timestamp b) with
  | Js.Int x, Js.Int y => x <= y
  | _, _ => False
  end.

(** A timeline in ascending timestamp order. *)
Definition ascending (msgs : list Chat.Message) : Prop :=
  StronglySorted notLater msgs.

(** No message of [earlier] is of the calendar day of [m]. *)
Definition firstOfDay (earlier : list Chat.Message) (m : Chat.Message) : bool :=
  forallb (fun e => negb (Js.dateStringEq (dayOf e) (dayOf m))) earlier.

(** The rendering the specification describes: a separator before the
    first message of each calendar day and nowhere else. *)
Fixpoint renderByDay (p : Chat.Props) (now : Z)
  (earlier msgs : list Chat.Message) : list Chat.Node :=
  match msgs with
  | [] => []
  | m :: rest =>
      ((if firstOfDay earlier m
        then [Chat.DateSeparator (Chat.formatDateSeparator now (Chat.timestamp m))]
        else []) ++
       Chat.Bubble m
         (Js.strictEqOpt (Some (Chat.sender_id (Chat.sender m))) (Chat.userId p))
       :: renderByDay p now (earlier ++ [m]) rest)%list
  end.

End ByDay.

(** The kind of the last presence event about [u]: [Some true] for
    [user_online], [Some false] for [user_offline], [None] when there is
    none. *)
Fixpoint lastPresence (u : string) (es : list SocketContext.PresenceEvent)
  : option bool :=
  match es with
  | [] => None
  | e :: rest =>
      match lastPresence u rest with
      | Some b => Some b
      | None =>
          match e with
          | SocketContext.UserOnline v => if String.eqb v u then Some true else None
          | SocketContext.UserOffline v => if String.eqb v u then Some false else None
          end
      end
  end.

(** The messages of the bubbles of a rendering, in order, and the number of
    its separators. *)
Fixpoint bubblesOf (nodes : list Chat.Node) : list (Chat.Message * bool) :=
  match nodes with
  | [] => []
  | Chat.DateSeparator _ :: rest => bubblesOf rest
  | Chat.Bubble m own :: rest => (m, own) :: bubblesOf rest
  end.

Fixpoint separatorsOf (nodes : list Chat.Node) : nat :=
  match nodes with
  | [] => O
  | Chat.DateSeparator _ :: rest => S (separatorsOf rest)
  | Chat.Bubble _ _ :: rest => separatorsOf rest
  end.

(** A string made of white space only. *)
Fixpoint allWhiteSpace (s : string) : bool :=
  match s with
  | EmptyString => true
  | String c s' => Js.isWhiteSpace c && allWhiteSpace s'
  end.

(** A skill as the profile form keeps it: not empty, without comma, and
    without white space at its ends. *)
Fixpoint hasComma (s : string) : bool :=
  match s with
  | EmptyString => false
  | String c s' => Ascii.eqb c "," || hasComma s'
  end.

Definition cleanSkill (s : string) : Prop :=
  s <> "" /\ hasComma s = false /\ Js.trim s = s.

(** What a pushed event says about the other party's typing: [Some true]
    for a typing-started event of this conversation from someone else,
    [Some false] for such a typing-stopped event, [None] otherwise. *)
Definition typingSignal (p : Chat.Props) (e : Chat.SocketEvent) : option bool :=
  let fromOther d :=
    Js.strictEqOpt (Some (Chat.td_chatId d)) (Chat.chatId p)
    && negb (Js.strictEqOpt (Chat.td_userId d) (Chat.userId p)) in
  match e with
  | Chat.receive_message _ => None
  | Chat.user_typing d => if fromOther d then Some true else None
  | Chat.user_stop_typing d => if fromOther d then Some false else None
  end.

(** The last such signal among events pushed at the given times. *)
Fixpoint lastTyping (p : Chat.Props) (es : list (Z * Chat.SocketEvent))
  : option bool :=
  match es with
  | [] => None
  | (_, e) :: rest =>
      match lastTyping p rest with
      | Some b => Some b
      | None => typingSignal p e
      end
  end.

End Spec.

(** ** Sample data *)

Module Sample.

Definition nobody : Js.Presence :=
  {| Js.isOnline := None; Js.lastSeen := None |}.

Definition ada : Dashboard.PotentialMatch :=
  {| Dashboard.pm_id := "u-ada"; Dashboard.firstName := "Ada";
     Dashboard.lastName := "L"; Dashboard.age := 28;
     Dashboard.presence := nobody |}.

Definition bob : Dashboard.PotentialMatch :=
  {| Dashboard.pm_id := "u-bob"; Dashboard.firstName := "Bob";
     Dashboard.lastName := "M"; Dashboard.age := 31;
     Dashboard.presence := nobody |}.

Definition cy : Dashboard.PotentialMatch :=
  {| Dashboard.pm_id := "u-cy"; Dashboard.firstName := "Cy";
     Dashboard.lastName := "N"; Dashboard.age := 25;
     Dashboard.presence := nobody |}.

(** The discovery feed showing candidate number [i] of [ada; bob]. *)
Definition feedAt (i : Z) (inFlight : bool) : Dashboard.State :=
  {| Dashboard.potentialMatches := [ada; bob];
     Dashboard.currentIndex := i;
     Dashboard.loading := false;
     Dashboard.swiping := inFlight;
     Dashboard.showFilters := false;
     Dashboard.filters := Dashboard.noFilters |}.

(** The viewer "me" on the chat screen of conversation "c1". *)
Definition viewer : Chat.Props :=
  {| Chat.chatId := Some "c1"; Chat.socket := true; Chat.userId := Some "me" |}.

Definition hello : Chat.Message :=
  {| Chat.msg_id := "m1";
     Chat.sender := {| Chat.sender_id := "you"; Chat.firstName := "Yu";
                       Chat.lastName := "K"; Chat.profilePicture := None |};
     Chat.content := "hello";
     Chat.timestamp := "1000";
     Chat.read := None; Chat.readAt := None |}.

Definition history : Chat.ChatData :=
  {| Chat.chat_id := "c1"; Chat.participants := []; Chat.messages := [hello] |}.

(** The screen with [history] loaded, the listeners registered and [text]
    in the input. *)
Definition ready (text : string) (isTyping : bool) : Chat.State :=
  {| Chat.chat := Some history; Chat.newMessage := text;
     Chat.loading := false; Chat.sending := false;
     Chat.typing := isTyping; Chat.otherUserTyping := false;
     Chat.typingTimeout := None; Chat.listening := true |}.

(** A pushed message and a typing event for conversation [c]. *)
Definition pushed (c : string) : Chat.ReceiveMessageData :=
  {| Chat.rm_chatId := c; Chat.rm_sender := "you"; Chat.rm_message := "hi";
     Chat.rm_timestamp := "2000" |}.

Definition typingBy (c : string) (u : string) : Chat.TypingData :=
  {| Chat.td_chatId := c; Chat.td_userId := Some u |}.

(** A message of "you" with the given timestamp. *)
Definition at_ (ts : string) : Chat.Message :=
  {| Chat.msg_id := ts;
     Chat.sender := {| Chat.sender_id := "you"; Chat.firstName := "Yu";
                       Chat.lastName := "K"; Chat.profilePicture := None |};
     Chat.content := "hello";
     Chat.timestamp := ts;
     Chat.read := None; Chat.readAt := None |}.

(** Conversations of the list: [chatWith id members unread]. *)
Definition member (id : string) : Matches.Participant :=
  {| Matches.participant_id := id; Matches.participant_firstName := id;
     Matches.participant_presence := nobody |}.

Definition chatWith (id : string) (members : list string) (unread : option Z)
  : Matches.Chat :=
  {| Matches.chat_id := id; Matches.participants := map member members;
     Matches.unreadCount := unread |}.

Definition matched (id : string) : Matches.Match :=
  {| Matches.match_id := id; Matches.match_firstName := id;
     Matches.match_lastName := ""; Matches.match_presence := nobody |}.

End Sample.

(** * Properties *)

(** ** JavaScript values *)

Lemma strictEq_true (a b : string) : Js.strictEq a b = true <-> a = b.
Proof. unfold Js.strictEq. apply String.eqb_eq. Qed.

Lemma strictEq_false (a b : string) : Js.strictEq a b = false <-> a <> b.
Proof. unfold Js.strictEq. apply String.eqb_neq. Qed.

Lemma strictEqOpt_true (a b : option string) :
  Js.strictEqOpt a b = true <-> a = b.
Proof.
  destruct a as [x|], b as [y|]; simpl; split; intros H;
    try discriminate; try reflexivity.
  - apply String.eqb_eq in H. now subst.
  - injection H as ->. apply String.eqb_refl.
Qed.

Lemma strictEqOpt_false (a b : option string) :
  Js.strictEqOpt a b = false <-> a <> b.
Proof.
  split.
  - intros H E. apply strictEqOpt_true in E. congruence.
  - intros H. destruct (Js.strictEqOpt a b) eqn:E; [|reflexivity].
    apply strictEqOpt_true in E. contradiction.
Qed.

(** ** The set of online ids *)

Section OnlineUsers.
Import SocketContext.

Lemma user_offline_count (u : string) (prev : list string) :
  count_occ string_dec (user_offline u prev) u = 0%nat.
Proof.
  apply count_occ_not_In. unfold user_offline. rewrite filter_In.
  intros [_ H]. apply negb_true_iff, strictEq_false in H. now apply H.
Qed.

Lemma user_offline_other (u v : string) (prev : list string) :
  v <> u ->
  count_occ string_dec (user_offline u prev) v = count_occ string_dec prev v.
Proof.
  intros Hvu. unfold user_offline.
  induction prev as [|x prev IH]; simpl; [reflexivity|].
  destruct (Js.strictEq x u) eqn:E; simpl.
  - apply strictEq_true in E. subst x.
    destruct (string_dec u v); [congruence|exact IH].
  - destruct (string_dec x v); [now rewrite IH|exact IH].
Qed.

Lemma user_offline_absent (u : string) (prev : list string) :
  ~ In u prev -> user_offline u prev = prev.
Proof.
  intros Hn. unfold user_offline. apply forallb_filter_id, forallb_forall.
  intros x Hx. apply negb_true_iff, strictEq_false. intros ->. now apply Hn.
Qed.

Lemma user_offline_NoDup (u : string) (prev : list string) :
  NoDup prev -> NoDup (user_offline u prev).
Proof. apply NoDup_filter. Qed.

Lemma user_online_NoDup (u : string) (prev : list string) :
  NoDup prev -> NoDup (user_online u prev).
Proof.
  intros Hnd. unfold user_online. apply NoDup_app.
  - now apply NoDup_filter.
  - constructor; [intros []|constructor].
  - intros a Ha [<-|[]]. apply filter_In in Ha as [_ Ha].
    apply negb_true_iff, strictEq_false in Ha. now apply Ha.
Qed.

Lemma user_online_count (u : string) (prev : list string) :
  count_occ string_dec (user_online u prev) u = 1%nat.
Proof.
  unfold user_online. rewrite count_occ_app.
  change (filter _ prev) with (user_offline u prev).
  rewrite user_offline_count. simpl.
  destruct (string_dec u u); [reflexivity|congruence].
Qed.

Lemma user_online_twice (u : string) (prev : list string) :
  user_online u (user_online u prev) = user_online u prev.
Proof.
  unfold user_online. rewrite filter_app. simpl.
  replace (Js.strictEq u u) with true by (symmetry; now apply strictEq_true).
  simpl. rewrite app_nil_r. f_equal.
  apply forallb_filter_id, forallb_forall. intros x Hx.
  now apply filter_In in Hx.
Qed.

Lemma onPresence_NoDup (e : PresenceEvent) (prev : list string) :
  NoDup prev -> NoDup (onPresence prev e).
Proof.
  destruct e; simpl; [apply user_online_NoDup|apply user_offline_NoDup].
Qed.

Lemma fold_onPresence_NoDup (es : list PresenceEvent) :
  forall prev, NoDup prev -> NoDup (fold_left onPresence es prev).
Proof.
  induction es as [|e es IH]; simpl; intros prev Hnd; [exact Hnd|].
  apply IH, onPresence_NoDup, Hnd.
Qed.

(** C6.  After any sequence of [user_online] and [user_offline] events the
    online list holds each id at most once; a [user_online] event leaves
    exactly one entry for its id, also when the id was present already
    (repeating the event changes nothing); a [user_offline] event removes
    the id, keeps every other id as it was, and is a no-op when the id is
    absent. *)
Theorem online_users_idempotent
  (es : list PresenceEvent) (u v : string) (prev : list string) :
  NoDup (runPresence es) /\
  count_occ string_dec (user_online u prev) u = 1%nat /\
  user_online u (user_online u prev) = user_online u prev /\
  count_occ string_dec (user_offline u prev) u = 0%nat /\
  (v <> u ->
   count_occ string_dec (user_offline u prev) v = count_occ string_dec prev v) /\
  (~ In u prev -> user_offline u prev = prev).
Proof.
  repeat split.
  - apply fold_onPresence_NoDup. constructor.
  - apply user_online_count.
  - apply user_online_twice.
  - apply user_offline_count.
  - apply user_offline_other.
  - apply user_offline_absent.
Qed.

Lemma online_users_idempotent_witness :
  NoDup (runPresence [UserOnline "a"; UserOnline "b"; UserOnline "a";
                      UserOffline "c"; UserOnline "a"]) /\
  runPresence [UserOnline "a"; UserOnline "b"; UserOnline "a"] = ["b"; "a"] /\
  count_occ string_dec (user_offline "a" ["a"; "b"]) "b"
    = count_occ string_dec ["a"; "b"] "b" /\
  user_offline "c" ["a"; "b"] = ["a"; "b"].
Proof.
  pose proof (online_users_idempotent
                [UserOnline "a"; UserOnline "b"; UserOnline "a";
                 UserOffline "c"; UserOnline "a"] "a" "b" ["a"; "b"])
    as (H1 & _ & _ & _ & H5 & _).
  pose proof (online_users_idempotent [] "c" "a" ["a"; "b"])
    as (_ & _ & _ & _ & _ & H6).
  split; [exact H1|]. split; [reflexivity|].
  split; [apply H5; discriminate|].
  apply H6. intros [H|[H|[]]]; discriminate.
Defined.

End OnlineUsers.

(** ** The presence status text *)

Section PresenceStatus.
Context {host : Js.Host}.

Lemma getOnlineStatus_same_rule (now : Z) (user : Js.Presence) :
  Dashboard.getOnlineStatus now user = Chat.getOnlineStatus now user /\
  Matches.text (Matches.getOnlineStatus now user) = Chat.getOnlineStatus now user.
Proof.
  unfold Dashboard.getOnlineStatus, Chat.getOnlineStatus, Matches.getOnlineStatus.
  destruct (Js.truthyBool (Js.isOnline user)); [now split|].
  destruct (Js.truthyString (Js.lastSeen user)) as [ls|]; [|now split].
  cbv zeta.
  destruct (Js.lt _ 60); [now split|].
  destruct (Js.lt _ 1440); now split.
Qed.

Lemma getOnlineStatus_online (now : Z) (user : Js.Presence) :
  Js.isOnline user = Some true -> Chat.getOnlineStatus now user = "Online".
Proof. intros H. unfold Chat.getOnlineStatus. now rewrite H. Qed.

Lemma getOnlineStatus_offline (now : Z) (user : Js.Presence) (ls : string) (t : Z) :
  Js.isOnline user <> Some true ->
  Js.lastSeen user = Some ls -> ls <> "" -> Js.Date_parse ls = Js.Int t ->
  Chat.getOnlineStatus now user = Spec.staleness ((now - t) / 60000).
Proof.
  intros Hoff Hls Hne Hparse. unfold Chat.getOnlineStatus.
  replace (Js.truthyBool (Js.isOnline user)) with false.
  2:{ destruct (Js.isOnline user) as [[|]|]; simpl; congruence. }
  rewrite Hls. simpl Js.truthyString.
  apply String.eqb_neq in Hne. rewrite Hne.
  cbv zeta. rewrite Hparse. simpl Js.sub. simpl Js.floorDiv.
  change (1000 * 60) with 60000.
  unfold Spec.staleness, Js.lt. reflexivity.
Qed.

(** C7.  [getOnlineStatus] returns "Online" whenever [isOnline] is true,
    whatever [lastSeen] is; otherwise, for a [lastSeen] instant
    [m = floor((now - lastSeen) / 60000)] whole minutes in the past, it
    returns "<m>m ago" when [m < 60], "<floor(m/60)>h ago" when
    [m < 1440] and "<floor(m/1440)>d ago" otherwise: 10 minutes give
    "10m ago", 90 minutes "1h ago", two days "2d ago"; the chat header, the
    conversation list and the discovery card compute the same text. *)
Theorem getOnlineStatus_buckets
  (now : Z) (user : Js.Presence) (ls : string) (t : Z) :
  (Js.isOnline user = Some true -> Chat.getOnlineStatus now user = "Online") /\
  (Js.isOnline user <> Some true ->
   Js.lastSeen user = Some ls -> ls <> "" -> Js.Date_parse ls = Js.Int t ->
   let m := (now - t) / 60000 in
   Chat.getOnlineStatus now user =
     (if m <? 60 then Js.numToString (Js.Int m) ++ "m ago"
      else if m <? 1440 then Js.numToString (Js.Int (m / 60)) ++ "h ago"
      else Js.numToString (Js.Int (m / 1440)) ++ "d ago") /\
   (m = 10 -> Chat.getOnlineStatus now user = "10m ago") /\
   (m = 90 -> Chat.getOnlineStatus now user = "1h ago") /\
   (m = 2 * 1440 -> Chat.getOnlineStatus now user = "2d ago")) /\
  Dashboard.getOnlineStatus now user = Chat.getOnlineStatus now user /\
  Matches.text (Matches.getOnlineStatus now user) = Chat.getOnlineStatus now user.
Proof.
  split; [apply getOnlineStatus_online|].
  split; [|apply getOnlineStatus_same_rule].
  intros Hoff Hls Hne Hparse m.
  pose proof (getOnlineStatus_offline now user ls t Hoff Hls Hne Hparse) as E.
  fold m in E. rewrite E. unfold Spec.staleness.
  split; [reflexivity|].
  repeat split; intros ->; reflexivity.
Qed.

End PresenceStatus.

Lemma getOnlineStatus_buckets_witness :
  let seen := {| Js.isOnline := Some false; Js.lastSeen := Some "1000" |} in
  let online := {| Js.isOnline := Some true; Js.lastSeen := Some "1000" |} in
  @Chat.getOnlineStatus Js.utcHost 5401000 online = "Online" /\
  @Chat.getOnlineStatus Js.utcHost 601000 seen = "10m ago" /\
  @Chat.getOnlineStatus Js.utcHost 5401000 seen = "1h ago" /\
  @Chat.getOnlineStatus Js.utcHost 172801000 seen = "2d ago".
Proof.
  intros seen online.
  assert (Hoff : Js.isOnline seen <> Some true) by discriminate.
  assert (Hne : "1000" <> "") by discriminate.
  pose proof (@getOnlineStatus_buckets Js.utcHost 5401000 online "1000" 1000)
    as (Hon & _).
  pose proof (@getOnlineStatus_buckets Js.utcHost 601000 seen "1000" 1000)
    as (_ & H10 & _).
  pose proof (@getOnlineStatus_buckets Js.utcHost 5401000 seen "1000" 1000)
    as (_ & H90 & _).
  pose proof (@getOnlineStatus_buckets Js.utcHost 172801000 seen "1000" 1000)
    as (_ & H2d & _).
  specialize (H10 Hoff eq_refl Hne eq_refl) as (_ & H10 & _).
  specialize (H90 Hoff eq_refl Hne eq_refl) as (_ & _ & H90 & _).
  specialize (H2d Hoff eq_refl Hne eq_refl) as (_ & _ & _ & H2d).
  split; [exact (Hon eq_refl)|].
  split; [exact (H10 eq_refl)|].
  split; [exact (H90 eq_refl)|exact (H2d eq_refl)].
Defined.

(** ** The discovery cursor *)

Section DiscoveryCursor.
Import Dashboard.

Lemma index_in_range {A : Type} (a : list A) (i : Z) :
  0 <= i < Z.of_nat (List.length a) -> exists x, Js.index a i = Some x.
Proof.
  intros [H0 Hn]. unfold Js.index.
  destruct (i <? 0) eqn:E; [apply Z.ltb_lt in E; lia|].
  destruct (nth_error a (Z.to_nat i)) as [x|] eqn:Ex; [now exists x|].
  apply nth_error_None in Ex. lia.
Qed.

Lemma handleSwipe_guard (action : Action) (st : State) :
  swiping st = true \/ Z.of_nat (List.length (potentialMatches st)) <= currentIndex st ->
  handleSwipe_begin action st = Returned.
Proof.
  intros H. unfold handleSwipe_begin.
  destruct (swiping st); simpl; [reflexivity|].
  destruct H as [H|H]; [discriminate|].
  apply Z.leb_le in H. now rewrite H.
Qed.

Lemma handleSwipe_issued (action : Action) (st : State) :
  swiping st = false ->
  0 <= currentIndex st < Z.of_nat (List.length (potentialMatches st)) ->
  exists currentUser,
    Js.index (potentialMatches st) (currentIndex st) = Some currentUser /\
    handleSwipe_begin action st =
      Awaiting (setSwiping true st) [ApiPostSwipe (pm_id currentUser) action].
Proof.
  intros Hs Hr. destruct (index_in_range _ _ Hr) as [u Hu].
  exists u. split; [exact Hu|].
  unfold handleSwipe_begin. rewrite Hs, Hu. simpl.
  destruct (Z.leb_spec (Z.of_nat (List.length (potentialMatches st))) (currentIndex st));
    [lia|reflexivity].
Qed.

(** The cursor stays a valid zero-based index or zero. *)
Lemma handleSwipe_cursor_nonneg
  (action : Action) (swipe : SwipeResponse) (refetch : FetchResponse) (st : State) :
  0 <= currentIndex st ->
  0 <= currentIndex (fst (handleSwipe action swipe refetch st)).
Proof.
  intros H0. unfold handleSwipe, handleSwipe_begin.
  destruct (swiping st || _); [exact H0|].
  destruct (Js.index _ _); [|exact H0].
  unfold handleSwipe_swiped.
  destruct swipe as [m|msg]; [|exact H0].
  destruct (currentIndex st <? _); simpl; [lia|].
  destruct refetch; simpl; [lia|exact H0].
Qed.

(** When the refetch after the last candidate fails, the batch and the
    cursor stay as they were. *)
Lemma handleSwipe_refetch_failed (action : Action) (m : bool) (st : State) :
  swiping st = false ->
  0 <= currentIndex st ->
  currentIndex st + 1 = Z.of_nat (List.length (potentialMatches st)) ->
  let st' := fst (handleSwipe action (SwipeOk m) FetchFailed st) in
  currentIndex st' = currentIndex st /\
  potentialMatches st' = potentialMatches st.
Proof.
  intros Hs H0 Hlast.
  destruct (handleSwipe_issued action st Hs ltac:(lia)) as (u & _ & Hb).
  unfold handleSwipe. rewrite Hb. unfold handleSwipe_swiped.
  destruct (Z.ltb_spec (currentIndex st)
              (Z.of_nat (List.length (potentialMatches st)) - 1)); [lia|].
  simpl. split; reflexivity.
Qed.

(** C4, as amended.  A swipe decision is a no-op while a prior decision is
    in flight or the cursor is past the end of the batch.  Otherwise the
    decision is submitted for the current candidate and finally the
    in-flight flag is cleared; on success before the last candidate the
    cursor advances by exactly one, the batch is kept and nothing is
    refetched; on success at the last candidate a refetch with the current
    filters is issued and, when that refetch succeeds, the fetched batch
    replaces the old one and the cursor is zero; on failure the cursor and
    the batch are unchanged. *)
Theorem handleSwipe_cursor
  (action : Action) (swipe : SwipeResponse) (refetch : FetchResponse) (st : State) :
  let n := Z.of_nat (List.length (potentialMatches st)) in
  let st' := fst (handleSwipe action swipe refetch st) in
  let fx := snd (handleSwipe action swipe refetch st) in
  (swiping st = true \/ n <= currentIndex st -> st' = st /\ fx = []) /\
  (swiping st = false -> 0 <= currentIndex st < n ->
   (exists currentUser,
      Js.index (potentialMatches st) (currentIndex st) = Some currentUser /\
      hd_error fx = Some (ApiPostSwipe (pm_id currentUser) action)) /\
   swiping st' = false /\
   (forall m, swipe = SwipeOk m -> currentIndex st + 1 < n ->
      currentIndex st' = currentIndex st + 1 /\
      potentialMatches st' = potentialMatches st /\
      existsb isRefetch fx = false) /\
   (forall m, swipe = SwipeOk m -> currentIndex st + 1 = n ->
      In (ApiGetPotentialMatches (searchParams (Some (filters st)))) fx /\
      forall data, refetch = FetchOk data ->
        potentialMatches st' = data /\ currentIndex st' = 0) /\
   (forall message, swipe = SwipeFailed message ->
      currentIndex st' = currentIndex st /\
      potentialMatches st' = potentialMatches st /\
      existsb isRefetch fx = false)).
Proof.
  intros n st' fx. split.
  - intros Hg. subst st' fx. unfold handleSwipe.
    rewrite (handleSwipe_guard action st Hg). now split.
  - intros Hs Hr.
    destruct (handleSwipe_issued action st Hs Hr) as (u & Hu & Hb).
    subst st' fx n. unfold handleSwipe. rewrite Hb.
    unfold handleSwipe_swiped.
    destruct swipe as [m|message].
    + destruct (Z.ltb_spec (currentIndex st)
                  (Z.of_nat (List.length (potentialMatches st)) - 1)) as [Hlt|Hge].
      * simpl. split; [exists u; now split|]. split; [reflexivity|].
        split; [|split].
        -- intros _ _ _. repeat split. destruct m; reflexivity.
        -- intros _ _ Hlast. lia.
        -- intros ? [=].
      * unfold handleSwipe_refetched, fetchPotentialMatches_resolved.
        destruct refetch as [data|]; simpl.
        -- split; [exists u; now split|]. split; [reflexivity|].
           split; [|split].
           ++ intros _ _ Hlt. lia.
           ++ intros _ _ _. split.
              ** right. apply in_or_app. left. apply in_or_app. right.
                 now left.
              ** intros d [= ->]. now split.
           ++ intros ? [=].
        -- split; [exists u; now split|]. split; [reflexivity|].
           split; [|split].
           ++ intros _ _ Hlt. lia.
           ++ intros _ _ _. split.
              ** right. apply in_or_app. left. apply in_or_app. right.
                 now left.
              ** intros d [=].
           ++ intros ? [=].
    + simpl. split; [exists u; now split|]. split; [reflexivity|].
      split; [|split].
      * intros ? [=].
      * intros ? [=].
      * intros _ _. repeat split.
Qed.

Lemma handleSwipe_cursor_witness :
  fst (handleSwipe like (SwipeOk true) FetchFailed (Sample.feedAt 0 true))
    = Sample.feedAt 0 true /\
  currentIndex (fst (handleSwipe like (SwipeOk true) FetchFailed
                       (Sample.feedAt 0 false))) = 1 /\
  potentialMatches (fst (handleSwipe pass (SwipeOk false) (FetchOk [Sample.cy])
                           (Sample.feedAt 1 false))) = [Sample.cy] /\
  currentIndex (fst (handleSwipe pass (SwipeOk false) (FetchOk [Sample.cy])
                       (Sample.feedAt 1 false))) = 0 /\
  currentIndex (fst (handleSwipe like (SwipeFailed None) FetchFailed
                       (Sample.feedAt 1 false))) = 1.
Proof.
  pose proof (handleSwipe_cursor like (SwipeOk true) FetchFailed
                (Sample.feedAt 0 true)) as (Hg & _).
  pose proof (handleSwipe_cursor like (SwipeOk true) FetchFailed
                (Sample.feedAt 0 false)) as (_ & Hadv).
  pose proof (handleSwipe_cursor pass (SwipeOk false) (FetchOk [Sample.cy])
                (Sample.feedAt 1 false)) as (_ & Hre).
  pose proof (handleSwipe_cursor like (SwipeFailed None) FetchFailed
                (Sample.feedAt 1 false)) as (_ & Hfail).
  cbv zeta in Hg, Hadv, Hre, Hfail.
  destruct (Hg (or_introl eq_refl)) as (Hg1 & _).
  destruct (Hadv eq_refl ltac:(simpl; lia)) as (_ & _ & Hadv1 & _).
  destruct (Hadv1 true eq_refl ltac:(simpl; lia)) as (Hadv2 & _).
  destruct (Hre eq_refl ltac:(simpl; lia)) as (_ & _ & _ & Hre1 & _).
  destruct (Hre1 false eq_refl ltac:(simpl; lia)) as (_ & Hre2).
  destruct (Hre2 [Sample.cy] eq_refl) as (Hre3 & Hre4).
  destruct (Hfail eq_refl ltac:(simpl; lia)) as (_ & _ & _ & _ & Hfail1).
  destruct (Hfail1 None eq_refl) as (Hfail2 & _).
  split; [exact Hg1|]. split; [exact Hadv2|]. split; [exact Hre3|].
  split; [exact Hre4|exact Hfail2].
Defined.

(** C4, as stated, fails: a successful decision on the last candidate
    whose refetch then fails neither advances the cursor nor resets it to
    zero, and no new batch replaces the old one. *)
Lemma handleSwipe_refetch_failure_counterexample :
  let st := Sample.feedAt 1 false in
  let st' := fst (handleSwipe like (SwipeOk false) FetchFailed st) in
  swiping st = false /\
  currentIndex st < Z.of_nat (List.length (potentialMatches st)) /\
  currentIndex st' = 1 /\
  currentIndex st' <> 0 /\
  currentIndex st' <> currentIndex st + 1 /\
  potentialMatches st' = [Sample.ada; Sample.bob].
Proof.
  cbv zeta. simpl. repeat split; try lia; discriminate.
Qed.

End DiscoveryCursor.

(** ** Live events of the chat screen *)

Section LiveEvents.
Import Chat.

Lemma appendMessage_loaded (m : Message) (c : ChatData) :
  option_map messages (appendMessage m (Some c)) = Some (messages c ++ [m])%list.
Proof. reflexivity. Qed.

Lemma app_one_neq {A : Type} (l : list A) (x : A) : (l ++ [x])%list <> l.
Proof.
  intros H. apply (f_equal (@List.length A)) in H.
  rewrite length_app in H. simpl in H. lia.
Qed.

(** C5.  With a conversation loaded, the [receive_message] listener appends
    the pushed message (its sender id, text and timestamp taken from the
    payload) to the timeline exactly when the payload's [chatId] is the
    open conversation's id; a payload tagged for another conversation
    leaves the whole state, and so the timeline, unchanged. *)
Theorem receive_message_appends_iff
  (p : Props) (now : Z) (data : ReceiveMessageData) (st : State) (c : ChatData) :
  chat st = Some c ->
  let st' := on_receive_message p now data st in
  (Some (rm_chatId data) = chatId p ->
   timeline st' = Some (messages c ++ [liveMessage now data])%list) /\
  (Some (rm_chatId data) <> chatId p -> st' = st) /\
  (timeline st' = Some (messages c ++ [liveMessage now data])%list
   <-> Some (rm_chatId data) = chatId p) /\
  sender_id (sender (liveMessage now data)) = rm_sender data /\
  content (liveMessage now data) = rm_message data /\
  timestamp (liveMessage now data) = rm_timestamp data.
Proof.
  intros Hc st'. subst st'. unfold on_receive_message, timeline.
  destruct (Js.strictEqOpt (Some (rm_chatId data)) (chatId p)) eqn:E.
  - apply strictEqOpt_true in E. simpl. rewrite Hc.
    split; [reflexivity|]. split; [congruence|].
    split; [now split|]. repeat split.
  - apply strictEqOpt_false in E. rewrite Hc. simpl.
    split; [congruence|]. split; [reflexivity|].
    split; [|repeat split].
    split; [|congruence].
    intros [= H]. symmetry in H. now apply app_one_neq in H.
Qed.

(** C9.  A typing-started (typing-stopped) event sets (clears) the
    other-party-typing flag, and changes nothing else, when its [chatId]
    is the open conversation's id and its [userId] differs from the
    viewer's id; in every other case, in particular for an event of the
    viewer itself, the state is left as it was. *)
Theorem typing_events_filtered (p : Props) (data : TypingData) (st : State) :
  (Some (td_chatId data) = chatId p -> td_userId data <> userId p ->
   on_user_typing p data st = setOtherUserTyping true st /\
   on_user_stop_typing p data st = setOtherUserTyping false st /\
   otherUserTyping (on_user_typing p data st) = true /\
   otherUserTyping (on_user_stop_typing p data st) = false) /\
  (Some (td_chatId data) <> chatId p ->
   on_user_typing p data st = st /\ on_user_stop_typing p data st = st) /\
  (td_userId data = userId p ->
   on_user_typing p data st = st /\ on_user_stop_typing p data st = st).
Proof.
  unfold on_user_typing, on_user_stop_typing.
  split; [|split].
  - intros Hc Hu. apply strictEqOpt_true in Hc. apply strictEqOpt_false in Hu.
    rewrite Hc, Hu. simpl. repeat split.
  - intros Hc. apply strictEqOpt_false in Hc. rewrite Hc. simpl. now split.
  - intros Hu. apply strictEqOpt_true in Hu. rewrite Hu.
    rewrite andb_false_r. now split.
Qed.

Lemma receive_message_appends_iff_witness :
  timeline (on_receive_message Sample.viewer 5000 (Sample.pushed "c1")
              (Sample.ready "" false))
    = Some [Sample.hello; liveMessage 5000 (Sample.pushed "c1")] /\
  on_receive_message Sample.viewer 5000 (Sample.pushed "c2")
    (Sample.ready "" false) = Sample.ready "" false.
Proof.
  pose proof (receive_message_appends_iff Sample.viewer 5000 (Sample.pushed "c1")
                (Sample.ready "" false) Sample.history eq_refl) as (Hin & _).
  pose proof (receive_message_appends_iff Sample.viewer 5000 (Sample.pushed "c2")
                (Sample.ready "" false) Sample.history eq_refl) as (_ & Hout & _).
  split; [exact (Hin eq_refl)|].
  apply Hout. discriminate.
Defined.

Lemma typing_events_filtered_witness :
  otherUserTyping (on_user_typing Sample.viewer (Sample.typingBy "c1" "you")
                     (Sample.ready "" false)) = true /\
  on_user_typing Sample.viewer (Sample.typingBy "c2" "you") (Sample.ready "" false)
    = Sample.ready "" false /\
  on_user_typing Sample.viewer (Sample.typingBy "c1" "me") (Sample.ready "" false)
    = Sample.ready "" false.
Proof.
  pose proof (typing_events_filtered Sample.viewer (Sample.typingBy "c1" "you")
                (Sample.ready "" false)) as (Hset & _).
  pose proof (typing_events_filtered Sample.viewer (Sample.typingBy "c2" "you")
                (Sample.ready "" false)) as (_ & Hother & _).
  pose proof (typing_events_filtered Sample.viewer (Sample.typingBy "c1" "me")
                (Sample.ready "" false)) as (_ & _ & Hself).
  split; [apply (Hset eq_refl); discriminate|].
  split; [apply Hother; discriminate|].
  apply (Hself eq_refl).
Defined.

End LiveEvents.

(** ** The send path *)

Section SendPath.
Import Chat.

(** The local typing flag is only ever raised while a socket is present. *)
Lemma step_typing (p : Props) (st : State) (ev : Event) :
  typing (step p st ev) = true -> typing st = true \/ socket p = true.
Proof.
  destruct ev; simpl.
  - unfold mount, subscriptionEffect.
    destruct (socket p), (Js.truthyString (chatId p)); simpl; auto.
  - destruct r; simpl; auto.
  - unfold deliver. destruct (listening st); [|auto].
    destruct e; simpl.
    + unfold on_receive_message. destruct (Js.strictEqOpt _ _); simpl; auto.
    + unfold on_user_typing. destruct (_ && _); simpl; auto.
    + unfold on_user_stop_typing. destruct (_ && _); simpl; auto.
  - unfold onChange, handleTyping. simpl.
    destruct (typing st) eqn:Ht; simpl; [auto|].
    destruct (socket p); simpl; [auto|].
    destruct (Js.truthyString (chatId p)); simpl; rewrite Ht; auto.
  - unfold idle. destruct (typingTimeout st) as [tm|]; [|auto].
    unfold typingTimeout_fired.
    destruct (closure_typing tm && socket p), (Js.truthyString (chatId p));
      simpl; auto; discriminate.
  - unfold handleSendMessage_begin.
    destruct (_ || _), (Js.truthyString (chatId p)); simpl; auto.
    destruct (typing st && socket p) eqn:E; simpl; auto; discriminate.
  - destruct r; simpl; auto.
  - simpl. auto.
Qed.

Lemma typing_needs_socket (p : Props) (evs : list Event) :
  typing (run p evs init) = true -> socket p = true.
Proof.
  unfold run.
  assert (H : forall st, (typing st = true -> socket p = true) ->
                         typing (fold_left (step p) evs st) = true ->
                         socket p = true).
  { induction evs as [|ev evs IH]; simpl; intros st Hst; [exact Hst|].
    apply IH. intros Ht. destruct (step_typing p st ev Ht); auto. }
  apply H. simpl. discriminate.
Qed.

Lemma handleSendMessage_begin_guard (p : Props) (st : State) :
  Js.trim (newMessage st) = "" \/ sending st = true \/
  chatId p = None \/ chatId p = Some "" ->
  handleSendMessage_begin p st = (st, [PreventDefault], None).
Proof.
  intros H. unfold handleSendMessage_begin.
  destruct H as [H|[H|[H|H]]].
  - rewrite H. simpl. now destruct (Js.truthyString (chatId p)).
  - rewrite H, orb_true_r. now destruct (Js.truthyString (chatId p)).
  - rewrite H. simpl. now destruct (_ || _).
  - rewrite H. simpl. now destruct (_ || _).
Qed.

Lemma handleSendMessage_begin_sends (p : Props) (st : State) (c : string) :
  Js.trim (newMessage st) <> "" -> sending st = false ->
  chatId p = Some c -> c <> "" ->
  handleSendMessage_begin p st =
    (let st1 := setNewMessage "" (setSending true st) in
     if typing st && socket p then setTyping false st1 else st1,
     (PreventDefault ::
      (if typing st && socket p then [Emit_typing_stop c] else []) ++
      [ApiPostMessage c (Js.trim (newMessage st))])%list,
     Some {| pending_chatId := c; messageContent := Js.trim (newMessage st) |}).
Proof.
  intros Hne Hs Hc Hcne. unfold handleSendMessage_begin.
  apply String.eqb_neq in Hne. rewrite Hne, Hs, Hc. simpl.
  apply String.eqb_neq in Hcne. rewrite Hcne.
  now destruct (typing st && socket p).
Qed.

(** C10.  Submitting the form with an input that is empty after trimming,
    or while a send is in flight, or without a conversation id, leaves the
    whole state (so the timeline, the input and the typing flag) as it
    was, and issues no API call and no socket emission. *)
Theorem handleSendMessage_guarded (p : Props) (r : PostResponse) (st : State) :
  Js.trim (newMessage st) = "" \/ sending st = true \/
  chatId p = None \/ chatId p = Some "" ->
  let st' := fst (handleSendMessage p r st) in
  let fx := snd (handleSendMessage p r st) in
  st' = st /\
  timeline st' = timeline st /\
  newMessage st' = newMessage st /\
  typing st' = typing st /\
  existsb isApiCall fx = false /\
  existsb isEmission fx = false.
Proof.
  intros H. unfold handleSendMessage.
  rewrite (handleSendMessage_begin_guard p st H). simpl. repeat split.
Qed.

Lemma handleSendMessage_guarded_witness :
  fst (handleSendMessage Sample.viewer (PostOk Sample.hello) (Sample.ready "  " true))
    = Sample.ready "  " true /\
  existsb isApiCall
    (snd (handleSendMessage Sample.viewer (PostOk Sample.hello)
            (Sample.ready "  " true))) = false.
Proof.
  pose proof (handleSendMessage_guarded Sample.viewer (PostOk Sample.hello)
                (Sample.ready "  " true) (or_introl eq_refl))
    as (H1 & _ & _ & _ & H2 & _).
  split; [exact H1|exact H2].
Defined.

(** C3, as amended.  A submission that passes the guard clears the input
    and (in a state where the typing flag is only raised with a socket
    present, as in every reachable state) the typing flag, and posts the
    trimmed content, all before the post resolves.  When the post
    succeeds, the message of the response is appended to the timeline and
    the input stays empty.  When it fails, the input is set to the trimmed
    content that was posted, nothing is appended, and every other cell is
    left as it is: the typing flag is not raised again. *)
Theorem handleSendMessage_send_path
  (p : Props) (st mid : State) (c : string) (data : Message) :
  Js.trim (newMessage st) <> "" -> sending st = false ->
  chatId p = Some c -> c <> "" ->
  (typing st = true -> socket p = true) ->
  let content := Js.trim (newMessage st) in
  let k := {| pending_chatId := c; messageContent := content |} in
  let st1 := fst (fst (handleSendMessage_begin p st)) in
  let fx1 := snd (fst (handleSendMessage_begin p st)) in
  (snd (handleSendMessage_begin p st) = Some k /\
   In (ApiPostMessage c content) fx1 /\
   newMessage st1 = "" /\ typing st1 = false /\ sending st1 = true /\
   chat st1 = chat st) /\
  (let st2 := fst (handleSendMessage_resolved p k (PostOk data) mid) in
   chat st2 = appendMessage data (chat mid) /\
   (forall cd, chat mid = Some cd ->
      timeline st2 = Some (messages cd ++ [data])%list) /\
   newMessage st2 = newMessage mid /\ typing st2 = typing mid /\
   sending st2 = false) /\
  (let st2 := fst (handleSendMessage_resolved p k PostFailed mid) in
   st2 = setSending false (setNewMessage content mid) /\
   newMessage st2 = content /\
   timeline st2 = timeline mid /\
   typing st2 = typing mid /\
   existsb isApiCall (snd (handleSendMessage_resolved p k PostFailed mid)) = false /\
   existsb isEmission (snd (handleSendMessage_resolved p k PostFailed mid)) = false).
Proof.
  intros Hne Hs Hc Hcne Hinv content k st1 fx1.
  subst st1 fx1. rewrite (handleSendMessage_begin_sends p st c Hne Hs Hc Hcne).
  cbv zeta. simpl fst. simpl snd.
  split; [|split].
  - split; [reflexivity|].
    split; [right; apply in_or_app; right; now left|].
    destruct (typing st) eqn:Ht.
    + rewrite (Hinv eq_refl). simpl. repeat split.
    + simpl. rewrite Ht. repeat split.
  - simpl. repeat split.
    intros cd Hcd. unfold timeline. simpl. now rewrite Hcd.
  - simpl. repeat split.
Qed.

Lemma handleSendMessage_send_path_witness :
  let st := Sample.ready " hi " true in
  newMessage (fst (fst (handleSendMessage_begin Sample.viewer st))) = "" /\
  typing (fst (fst (handleSendMessage_begin Sample.viewer st))) = false /\
  timeline (fst (handleSendMessage Sample.viewer (PostOk Sample.hello) st))
    = Some [Sample.hello; Sample.hello] /\
  newMessage (fst (handleSendMessage Sample.viewer PostFailed st)) = "hi" /\
  timeline (fst (handleSendMessage Sample.viewer PostFailed st))
    = Some [Sample.hello].
Proof.
  intros st.
  assert (Hne : Js.trim (newMessage st) <> "") by discriminate.
  assert (Hc : "c1" <> "") by discriminate.
  pose proof (handleSendMessage_send_path Sample.viewer st
                (fst (fst (handleSendMessage_begin Sample.viewer st)))
                "c1" Sample.hello Hne eq_refl eq_refl Hc (fun _ => eq_refl))
    as ((_ & _ & Hin & Hty & _) & (_ & Hok & _) & (_ & Hrest & Htl & _)).
  split; [exact Hin|]. split; [exact Hty|].
  split; [exact (Hok Sample.history eq_refl)|].
  split; [exact Hrest|exact Htl].
Defined.

(** C3, as stated, fails where the input has white space around its
    content: after a failed post the input holds the trimmed content, not
    the content that was typed. *)
Lemma handleSendMessage_restore_counterexample :
  let st := Sample.ready " hi " false in
  let st' := fst (handleSendMessage Sample.viewer PostFailed st) in
  newMessage st = " hi " /\
  newMessage st' = "hi" /\
  newMessage st' <> newMessage st.
Proof.
  cbv zeta. split; [reflexivity|]. split; [reflexivity|].
  simpl. discriminate.
Qed.

End SendPath.

(** ** The typing signal *)

Section TypingSignal.
Import Chat.

Variable p : Props.
Variable c : string.
Hypothesis socket_present : socket p = true.
Hypothesis chat_open : chatId p = Some c.
Hypothesis chat_named : c <> "".

Lemma chatId_truthy : Js.truthyString (chatId p) = Some c.
Proof.
  rewrite chat_open. simpl.
  now destruct (String.eqb_spec c "").
Qed.

(** The first keystroke of a burst emits typing-started and arms a timer
    whose callback sees [typing = false]. *)
Lemma onChange_first (t : Z) (value : string) (st : State) :
  typing st = false ->
  onChange p t value st =
    (setTypingTimeout (Some {| due := t + 1000; closure_typing := false |})
       (setTyping true (setNewMessage value st)),
     [Emit_typing_start c]).
Proof.
  intros Ht. unfold onChange, handleTyping. simpl.
  rewrite Ht, socket_present, chatId_truthy. reflexivity.
Qed.

(** A later keystroke emits nothing and re-arms the timer with a callback
    that sees [typing = true]. *)
Lemma onChange_next (t : Z) (value : string) (st : State) :
  typing st = true ->
  onChange p t value st =
    (setTypingTimeout (Some {| due := t + 1000; closure_typing := true |})
       (setNewMessage value st),
     []).
Proof.
  intros Ht. unfold onChange, handleTyping. simpl.
  rewrite Ht. simpl. now destruct (Js.truthyString (chatId p)).
Qed.

Lemma keystrokes_cons (t : Z) (value : string) (rest : list (Z * string))
  (st : State) :
  keystrokes p ((t, value) :: rest) st =
    (fst (keystrokes p rest (fst (onChange p t value (fst (elapse p t st))))),
     (snd (elapse p t st) ++
      stamp t (snd (onChange p t value (fst (elapse p t st)))) ++
      snd (keystrokes p rest (fst (onChange p t value (fst (elapse p t st))))))%list).
Proof.
  cbn [keystrokes].
  destruct (elapse p t st) as [st1 log1]. cbn [fst snd].
  destruct (onChange p t value st1) as [st2 fx]. cbn [fst snd].
  now destruct (keystrokes p rest st2).
Qed.

Lemma typeBurst_split (keys : list (Z * string)) (st : State) :
  typeBurst p keys st =
    (fst (idle p (fst (keystrokes p keys st))),
     (snd (keystrokes p keys st) ++ snd (idle p (fst (keystrokes p keys st))))%list).
Proof.
  unfold typeBurst. destruct (keystrokes p keys st) as [st1 log1].
  cbn [fst snd]. now destruct (idle p st1).
Qed.

Lemma elapse_none (t : Z) (st : State) :
  typingTimeout st = None -> elapse p t st = (st, []).
Proof. intros H. unfold elapse. now rewrite H. Qed.

Lemma elapse_early (t : Z) (tm : Timeout) (st : State) :
  typingTimeout st = Some tm -> t < due tm -> elapse p t st = (st, []).
Proof.
  intros H Hlt. unfold elapse. rewrite H.
  destruct (Z.leb_spec (due tm) t); [lia|reflexivity].
Qed.

Lemma idle_pending (tm : Timeout) (st : State) :
  typingTimeout st = Some tm ->
  idle p st =
    if closure_typing tm
    then (setTyping false (setTypingTimeout None st),
          [(due tm, Emit_typing_stop c)])
    else (setTypingTimeout None st, []).
Proof.
  intros H. unfold idle, typingTimeout_fired. rewrite H.
  rewrite socket_present, chatId_truthy.
  now destruct (closure_typing tm).
Qed.

Lemma keystrokes_in_burst (keys : list (Z * string)) :
  forall (t : Z) (b : bool) (st : State),
    typing st = true ->
    typingTimeout st = Some {| due := t + 1000; closure_typing := b |} ->
    Spec.spaced t keys ->
    snd (keystrokes p keys st) = [] /\
    typing (fst (keystrokes p keys st)) = true /\
    typingTimeout (fst (keystrokes p keys st)) =
      Some {| due := Spec.lastTime t keys + 1000;
              closure_typing := match keys with [] => b | _ => true end |}.
Proof.
  induction keys as [|[t' v] rest IH]; intros t b st Ht Htm Hsp.
  - simpl. auto.
  - destruct Hsp as [Hgap Hsp]. rewrite keystrokes_cons.
    rewrite (elapse_early t' _ st Htm) by (simpl; lia).
    cbn [fst snd]. rewrite (onChange_next t' v st Ht). cbn [fst snd].
    destruct (IH t' true
                (setTypingTimeout
                   (Some {| due := t' + 1000; closure_typing := true |})
                   (setNewMessage v st))
                Ht eq_refl Hsp) as (Hlog & Hty & Hto).
    rewrite Hlog, Hty, Hto. cbn [Spec.lastTime].
    split; [reflexivity|]. split; [reflexivity|]. now destruct rest.
Qed.

(** A burst of two or more keystrokes emits typing-started once, at its
    first keystroke, and typing-stopped once, one second after its last,
    and then the typing flag is down. *)
Lemma typeBurst_two_or_more
  (t1 t2 : Z) (v1 v2 : string) (rest : list (Z * string)) (st : State) :
  typing st = false -> typingTimeout st = None ->
  Spec.spaced t1 ((t2, v2) :: rest) ->
  snd (typeBurst p ((t1, v1) :: (t2, v2) :: rest) st) =
    [(t1, Emit_typing_start c);
     (Spec.lastTime t1 ((t2, v2) :: rest) + 1000, Emit_typing_stop c)] /\
  typing (fst (typeBurst p ((t1, v1) :: (t2, v2) :: rest) st)) = false.
Proof.
  intros Ht Hto Hsp. rewrite typeBurst_split, keystrokes_cons.
  rewrite (elapse_none t1 st Hto). cbn [fst snd].
  rewrite (onChange_first t1 v1 st Ht). cbn [fst snd].
  set (st1 := setTypingTimeout _ _).
  destruct (keystrokes_in_burst ((t2, v2) :: rest) t1 false st1
              eq_refl eq_refl Hsp) as (Hlog & Hty & Htm).
  rewrite (idle_pending _ _ Htm). cbn [closure_typing due fst snd].
  rewrite Hlog. split; reflexivity.
Qed.

(** C2 fails for a burst of one keystroke.  From a state with the typing
    flag down and no timer pending, a single keystroke emits
    typing-started and arms the timer; the callback of that timer closed
    over [typing = false], so when it runs a second later it emits nothing
    and the flag stays up. *)
Theorem typeBurst_single_keystroke (t : Z) (value : string) (st : State) :
  typing st = false -> typingTimeout st = None ->
  snd (typeBurst p [(t, value)] st) = [(t, Emit_typing_start c)] /\
  typing (fst (typeBurst p [(t, value)] st)) = true /\
  typingTimeout (fst (typeBurst p [(t, value)] st)) = None.
Proof.
  intros Ht Hto. rewrite typeBurst_split, keystrokes_cons.
  rewrite (elapse_none t st Hto). cbn [fst snd].
  rewrite (onChange_first t value st Ht). cbn [fst snd keystrokes].
  rewrite (idle_pending {| due := t + 1000; closure_typing := false |})
    by reflexivity.
  repeat split.
Qed.

End TypingSignal.

Section TypingExamples.
Import Chat.

Lemma typeBurst_single_keystroke_witness :
  snd (typeBurst Sample.viewer [(0, "h")] (Sample.ready "" false))
    = [(0, Emit_typing_start "c1")] /\
  typing (fst (typeBurst Sample.viewer [(0, "h")] (Sample.ready "" false))) = true.
Proof.
  assert (Hc : "c1" <> "") by discriminate.
  pose proof (typeBurst_single_keystroke Sample.viewer "c1" eq_refl eq_refl Hc
                0 "h" (Sample.ready "" false) eq_refl eq_refl) as (Hlog & Hty & _).
  split; [exact Hlog|exact Hty].
Defined.

(** Two keystrokes half a second apart: one typing-started, one
    typing-stopped a second after the second keystroke. *)
Example typeBurst_two_keystrokes :
  snd (typeBurst Sample.viewer [(0, "h"); (500, "hi")] (Sample.ready "" false))
    = [(0, Emit_typing_start "c1"); (1500, Emit_typing_stop "c1")].
Proof. reflexivity. Qed.

(** After a burst of one keystroke the flag is still up, so the next burst
    emits no typing-started. *)
Example typeBurst_after_single_keystroke :
  let st := fst (typeBurst Sample.viewer [(0, "h")] (Sample.ready "" false)) in
  snd (typeBurst Sample.viewer [(5000, "hi")] st) = [(6000, Emit_typing_stop "c1")].
Proof. reflexivity. Qed.

End TypingExamples.

(** ** History and subscription *)

Section HistoryAndSubscription.
Import Chat.

Lemma mount_subscribes (p : Props) (c : string) (st : State) :
  socket p = true -> chatId p = Some c -> c <> "" ->
  mount p st = (setListening true st, [ApiGetMessages c; Emit_join_chat c]).
Proof.
  intros Hs Hc Hne. unfold mount, fetchEffect, subscriptionEffect.
  rewrite Hs, Hc. simpl. apply String.eqb_neq in Hne. now rewrite Hne.
Qed.

(** C1, as amended.  With a socket and a conversation id present, the
    mount effects issue the history fetch and register the listeners at
    once: the subscription exists while the history is still unloaded.  A
    live message of this conversation that arrives then is not merged:
    the state is unchanged, and when the fetch resolves the timeline is the
    fetched history alone.  A live message that arrives after the fetch
    resolved is appended to the fetched history. *)
Theorem subscription_independent_of_fetch
  (p : Props) (c : string) (now : Z) (data : ReceiveMessageData) (h : ChatData) :
  socket p = true -> chatId p = Some c -> c <> "" -> rm_chatId data = c ->
  let st0 := run p [Mounted] init in
  (snd (mount p init) = [ApiGetMessages c; Emit_join_chat c] /\
   listening st0 = true /\ chat st0 = None /\ loading st0 = true) /\
  deliver p now (receive_message data) st0 = st0 /\
  timeline (run p [Mounted; Pushed now (receive_message data);
                   FetchResolved (FetchOk h)] init)
    = Some (messages h) /\
  timeline (run p [Mounted; FetchResolved (FetchOk h);
                   Pushed now (receive_message data)] init)
    = Some (messages h ++ [liveMessage now data])%list.
Proof.
  intros Hs Hc Hne Hd st0. subst st0. unfold run. simpl fold_left.
  rewrite (mount_subscribes p c init Hs Hc Hne). cbn [fst snd].
  assert (E : Js.strictEqOpt (Some (rm_chatId data)) (chatId p) = true).
  { apply strictEqOpt_true. now rewrite Hd, Hc. }
  split; [repeat split|].
  unfold deliver, on_receive_message.
  cbn [listening setListening setLoading setChat init fst fetchChat_resolved].
  rewrite E. repeat split.
Qed.

Lemma subscription_independent_of_fetch_witness :
  listening (run Sample.viewer [Mounted] init) = true /\
  chat (run Sample.viewer [Mounted] init) = None /\
  timeline (run Sample.viewer
              [Mounted; FetchResolved (FetchOk Sample.history);
               Pushed 5000 (receive_message (Sample.pushed "c1"))] init)
    = Some [Sample.hello; liveMessage 5000 (Sample.pushed "c1")].
Proof.
  assert (Hc : "c1" <> "") by discriminate.
  pose proof (subscription_independent_of_fetch Sample.viewer "c1" 5000
                (Sample.pushed "c1") Sample.history eq_refl eq_refl Hc eq_refl)
    as ((_ & Hl & Hn & _) & _ & _ & Hlate).
  split; [exact Hl|]. split; [exact Hn|exact Hlate].
Defined.

(** C1, as stated, fails: the listeners are registered while the history
    is still being fetched, and a live message of the open conversation
    that arrives before the fetch resolves is dropped: it is not in the
    timeline once the history is loaded. *)
Lemma live_message_before_history_counterexample :
  let live := liveMessage 5000 (Sample.pushed "c1") in
  let st0 := run Sample.viewer [Mounted] init in
  let st2 := run Sample.viewer
               [Mounted; Pushed 5000 (receive_message (Sample.pushed "c1"));
                FetchResolved (FetchOk Sample.history)] init in
  listening st0 = true /\ chat st0 = None /\
  timeline st2 = Some [Sample.hello] /\
  ~ In live [Sample.hello].
Proof.
  cbv zeta. split; [reflexivity|]. split; [reflexivity|].
  split; [reflexivity|].
  intros [H|[]]. discriminate H.
Qed.

End HistoryAndSubscription.

(** ** Date separators *)

Section DateSeparators.
Import Chat.
Context {host : Js.Host}.

(** Later instants do not fall on earlier local calendar days. *)
Hypothesis localDay_monotone :
  forall t1 t2 : Z, t1 <= t2 -> Js.localDay t1 <= Js.localDay t2.

Lemma dateStringEq_true (a b : Js.DateString) :
  Js.dateStringEq a b = true <-> a = b.
Proof.
  destruct a as [x|], b as [y|]; simpl; split; intros H;
    try discriminate; try reflexivity.
  - apply Z.eqb_eq in H. now subst.
  - injection H as ->. apply Z.eqb_refl.
Qed.

Lemma notLater_days (a b : Message) :
  Spec.notLater a b ->
  exists x y, Spec.dayOf a = Js.DayString x /\ Spec.dayOf b = Js.DayString y /\ x <= y.
Proof.
  unfold Spec.notLater, Spec.dayOf.
  destruct (Js.Date_parse (timestamp a)) as [ta|]; [|intros []].
  destruct (Js.Date_parse (timestamp b)) as [tb|]; [|intros []].
  intros Hle. exists (Js.localDay ta), (Js.localDay tb).
  repeat split. now apply localDay_monotone.
Qed.

Lemma StronglySorted_app_cross {A : Type} (R : A -> A -> Prop) (l1 l2 : list A) :
  StronglySorted R (l1 ++ l2) ->
  forall a b, In a l1 -> In b l2 -> R a b.
Proof.
  induction l1 as [|x l1 IH]; simpl; intros Hs a b Ha Hb; [destruct Ha|].
  inversion Hs as [|? ? Hs' Hall]; subst.
  destruct Ha as [<-|Ha].
  - rewrite Forall_forall in Hall. apply Hall, in_or_app. now right.
  - now apply IH.
Qed.

Lemma index_before {A : Type} (l1 l2 : list A) :
  Js.index (l1 ++ l2) (Z.of_nat (List.length l1) - 1) =
    match rev l1 with
    | [] => None
    | x :: _ => Some x
    end.
Proof.
  induction l1 as [|a l1' _] using rev_ind.
  - reflexivity.
  - rewrite rev_app_distr. simpl rev. cbn [app].
    unfold Js.index. rewrite length_app. simpl List.length.
    destruct (Z.ltb_spec (Z.of_nat (List.length l1' + 1) - 1) 0); [lia|].
    replace (Z.to_nat (Z.of_nat (List.length l1' + 1) - 1))
      with (List.length l1') by lia.
    rewrite <- app_assoc. simpl.
    rewrite nth_error_app2 by lia. now rewrite Nat.sub_diag.
Qed.

(** In an ascending timeline the day of a message differs from the day of
    the message before it exactly when no earlier message is of its day. *)
Lemma shouldShow_firstOfDay (earlier rest : list Message) (m : Message) :
  Spec.ascending (earlier ++ m :: rest) ->
  shouldShowDateSeparator m
    (Js.index (earlier ++ m :: rest) (Z.of_nat (List.length earlier) - 1))
  = Spec.firstOfDay earlier m.
Proof.
  intros Hasc. rewrite index_before.
  induction earlier as [|prev before _] using rev_ind; [reflexivity|].
  rewrite rev_app_distr. simpl rev. cbn [app].
  unfold shouldShowDateSeparator, Spec.firstOfDay.
  rewrite forallb_app. simpl forallb. rewrite andb_true_r.
  fold (Spec.dayOf m). fold (Spec.dayOf prev).
  destruct (Js.dateStringEq (Spec.dayOf m) (Spec.dayOf prev)) eqn:E.
  - apply dateStringEq_true in E. rewrite E.
    replace (Js.dateStringEq (Spec.dayOf prev) (Spec.dayOf prev)) with true
      by (symmetry; now apply dateStringEq_true).
    simpl. now rewrite andb_false_r.
  - assert (Hpm : Spec.notLater prev m).
    { apply (StronglySorted_app_cross _ _ _ Hasc).
      - apply in_or_app. right. now left.
      - now left. }
    destruct (notLater_days _ _ Hpm) as (dp & dm & Hdp & Hdm & Hle).
    assert (Hne : dp <> dm).
    { intros ->. rewrite Hdp, Hdm in E. simpl in E.
      now rewrite Z.eqb_refl in E. }
    simpl. symmetry. apply andb_true_iff. split.
    + apply forallb_forall. intros e He.
      assert (Hep : Spec.notLater e prev).
      { rewrite <- app_assoc in Hasc.
        apply (StronglySorted_app_cross _ _ _ Hasc); [exact He|now left]. }
      destruct (notLater_days _ _ Hep) as (de & dp' & Hde & Hdp' & Hle').
      rewrite Hdp in Hdp'. injection Hdp' as <-.
      rewrite Hde, Hdm. simpl.
      apply negb_true_iff, Z.eqb_neq. lia.
    + rewrite Hdp, Hdm. simpl. apply negb_true_iff, Z.eqb_neq. exact Hne.
Qed.

Lemma render_from (p : Props) (now : Z) (all : list Message) :
  Spec.ascending all ->
  forall rest earlier, all = (earlier ++ rest)%list ->
    List.concat (Js.mapiFrom (renderMessage p now all)
                   (Z.of_nat (List.length earlier)) rest)
    = Spec.renderByDay p now earlier rest.
Proof.
  intros Hasc. induction rest as [|m rest IH]; intros earlier Hall.
  - reflexivity.
  - cbn [Js.mapiFrom List.concat Spec.renderByDay].
    replace (Z.of_nat (List.length earlier) + 1)
      with (Z.of_nat (List.length (earlier ++ [m]))).
    2:{ rewrite length_app. simpl. lia. }
    rewrite (IH (earlier ++ [m])%list).
    2:{ rewrite <- app_assoc. exact Hall. }
    unfold renderMessage at 1.
    rewrite Hall at 1. rewrite Hall in Hasc.
    rewrite (shouldShow_firstOfDay earlier rest m Hasc).
    rewrite <- app_assoc. reflexivity.
Qed.

Lemma formatDateSeparator_labels (now : Z) (ts : string) (t : Z) :
  Js.Date_parse ts = Js.Int t ->
  (Js.localDay t = Js.localDay now -> formatDateSeparator now ts = "Today") /\
  (Js.localDay t = Js.localDay now - 1 ->
   formatDateSeparator now ts = "Yesterday") /\
  (Js.localDay t < Js.localDay now - 1 ->
   formatDateSeparator now ts = Js.toLocaleDateString (Js.Int t)).
Proof.
  intros Hp. unfold formatDateSeparator. rewrite Hp. simpl.
  split; [|split]; intros H.
  - rewrite H. now rewrite Z.eqb_refl.
  - destruct (Z.eqb_spec (Js.localDay t) (Js.localDay now)); [lia|].
    rewrite H. now rewrite Z.eqb_refl.
  - destruct (Z.eqb_spec (Js.localDay t) (Js.localDay now)); [lia|].
    destruct (Z.eqb_spec (Js.localDay t) (Js.localDay now - 1)); [lia|].
    reflexivity.
Qed.

(** C8.  For a timeline in ascending timestamp order, the rendering puts a
    date separator exactly before the first message of each distinct
    calendar day and nowhere else; the separator of a message reads
    "Today" when the message is of the viewer's current calendar day,
    "Yesterday" when it is of the day before, and the localized date when
    it is older, days being those of the viewer's clock and time zone at
    render time. *)
Theorem date_separators_by_day
  (p : Props) (now : Z) (msgs : list Message) :
  Spec.ascending msgs ->
  renderMessages p now msgs = Spec.renderByDay p now [] msgs /\
  (forall m t, In m msgs -> Js.Date_parse (timestamp m) = Js.Int t ->
     (Js.localDay t = Js.localDay now ->
      formatDateSeparator now (timestamp m) = "Today") /\
     (Js.localDay t = Js.localDay now - 1 ->
      formatDateSeparator now (timestamp m) = "Yesterday") /\
     (Js.localDay t < Js.localDay now - 1 ->
      formatDateSeparator now (timestamp m) = Js.toLocaleDateString (Js.Int t))).
Proof.
  intros Hasc. split.
  - unfold renderMessages, Js.mapi.
    exact (render_from p now msgs Hasc msgs [] eq_refl).
  - intros m t _ Hp. now apply formatDateSeparator_labels.
Qed.

End DateSeparators.

Section DateSeparatorExamples.
Import Chat.

Lemma utc_localDay_monotone :
  forall t1 t2 : Z, t1 <= t2 -> @Js.localDay Js.utcHost t1 <= @Js.localDay Js.utcHost t2.
Proof.
  intros t1 t2 H. unfold Js.localDay, Js.msPerDay. simpl.
  apply Z.div_le_mono; lia.
Qed.

Lemma date_separators_by_day_witness :
  let now := 172850000 in
  let m0 := Sample.at_ "1000" in
  let m1 := Sample.at_ "86401000" in
  let m2 := Sample.at_ "172801000" in
  let m3 := Sample.at_ "172802000" in
  @renderMessages Js.utcHost Sample.viewer now [m0; m1; m2; m3] =
    [DateSeparator "1000"; Bubble m0 false;
     DateSeparator "Yesterday"; Bubble m1 false;
     DateSeparator "Today"; Bubble m2 false; Bubble m3 false].
Proof.
  intros now m0 m1 m2 m3.
  assert (Hasc : @Spec.ascending Js.utcHost [m0; m1; m2; m3]).
  { unfold Spec.ascending.
    repeat first [apply SSorted_nil | apply SSorted_cons
                 | apply Forall_nil | apply Forall_cons];
      vm_compute; discriminate. }
  pose proof (@date_separators_by_day Js.utcHost utc_localDay_monotone
                Sample.viewer now [m0; m1; m2; m3] Hasc) as [H _].
  rewrite H. reflexivity.
Defined.

End DateSeparatorExamples.

(** * Further properties of the components *)

(** ** Presence events *)

Section PresenceHistory.
Import SocketContext.

Lemma fold_onPresence_last (u : string) (es : list PresenceEvent) :
  forall prev,
    In u (fold_left onPresence es prev) <->
    match Spec.lastPresence u es with
    | Some b => b = true
    | None => In u prev
    end.
Proof.
  induction es as [|e es IH]; intros prev; simpl; [reflexivity|].
  rewrite IH. destruct (Spec.lastPresence u es) as [b|]; [reflexivity|].
  destruct e as [v|v]; simpl.
  - unfold user_online. rewrite in_app_iff, filter_In. simpl.
    destruct (String.eqb_spec v u) as [->|Hne].
    + split; auto.
    + split.
      * intros [[H _]|[H|[]]]; [exact H|contradiction].
      * intros H. left. split; [exact H|].
        apply negb_true_iff, strictEq_false. congruence.
  - unfold user_offline. rewrite filter_In.
    destruct (String.eqb_spec v u) as [->|Hne].
    + split; [|discriminate].
      intros [_ H]. apply negb_true_iff, strictEq_false in H. now contradiction H.
    + split; [now intros [H _]|].
      intros H. split; [exact H|].
      apply negb_true_iff, strictEq_false. congruence.
Qed.

(** X1.  After any sequence of presence events an id is in the online
    list exactly when the last event about that id is [user_online]. *)
Theorem online_iff_last_event_online (u : string) (es : list PresenceEvent) :
  In u (runPresence es) <-> Spec.lastPresence u es = Some true.
Proof.
  unfold runPresence. rewrite fold_onPresence_last.
  destruct (Spec.lastPresence u es) as [b|]; simpl.
  - split; [now intros ->|now intros [= ->]].
  - split; [intros []|discriminate].
Qed.

End PresenceHistory.

(** ** Filters and the discovery feed *)

Section Filters.
Import Dashboard.

Ltac eqb_cases :=
  repeat match goal with
         | |- context [String.eqb ?a ""] => destruct (String.eqb_spec a "")
         end.

Lemma searchParams_empty_iff (f : FilterOptions) :
  searchParams (Some f) = [] <-> f = noFilters.
Proof.
  destruct f as [a b c d e g]. unfold searchParams, noFilters. simpl.
  split.
  - eqb_cases; simpl; intros H; try discriminate H. now subst.
  - intros [= -> -> -> -> -> ->]. reflexivity.
Qed.

Lemma searchParams_complete (f : FilterOptions) (key : FilterKey) :
  getFilter key f <> "" ->
  In (keyName key, getFilter key f) (searchParams (Some f)).
Proof.
  intros Hne. unfold searchParams. apply filter_In. split.
  - destruct key; simpl; auto 10.
  - simpl. apply negb_true_iff, String.eqb_neq, Hne.
Qed.

Lemma searchParams_sound (f : FilterOptions) (k v : string) :
  In (k, v) (searchParams (Some f)) ->
  v <> "" /\ exists key, k = keyName key /\ v = getFilter key f.
Proof.
  unfold searchParams. rewrite filter_In. simpl. intros [Hin Hv].
  split; [now apply String.eqb_neq, negb_true_iff|].
  destruct Hin as [H|[H|[H|[H|[H|[H|[]]]]]]]; injection H as <- <-.
  - now exists kMinAge.
  - now exists kMaxAge.
  - now exists kSkills.
  - now exists kExperienceLevel.
  - now exists kLocation.
  - now exists kLookingFor.
Qed.

Lemma NoDup_map_filter {A B : Type} (g : A -> B) (h : A -> bool) (l : list A) :
  NoDup (map g l) -> NoDup (map g (filter h l)).
Proof.
  induction l as [|x l IH]; simpl; intros Hnd; [constructor|].
  inversion Hnd as [|? ? Hx Hl]; subst.
  destruct (h x); simpl; [|now apply IH].
  constructor; [|now apply IH].
  intros Hin. apply Hx. apply in_map_iff in Hin as (y & Hy & Hin).
  apply in_map_iff. exists y. split; [exact Hy|].
  now apply filter_In in Hin.
Qed.

(** X2.  The query of [fetchPotentialMatches] holds exactly the filter
    fields that are not empty, each under its own name and at most once;
    it is empty for a call without filters, and for a call with filters
    exactly when every field is empty. *)
Theorem searchParams_nonempty_fields (f : FilterOptions) (k v : string) :
  (In (k, v) (searchParams (Some f)) <->
   v <> "" /\ exists key, k = keyName key /\ v = getFilter key f) /\
  NoDup (map fst (searchParams (Some f))) /\
  searchParams None = [] /\
  (searchParams (Some f) = [] <-> f = noFilters).
Proof.
  split; [|split; [|split]].
  - split; [apply searchParams_sound|].
    intros (Hv & key & -> & ->). now apply searchParams_complete.
  - unfold searchParams. apply NoDup_map_filter. simpl.
    repeat (constructor; [simpl; intuition discriminate|]). constructor.
  - reflexivity.
  - apply searchParams_empty_iff.
Qed.

Lemma getFilter_withFilter (key key' : FilterKey) (value : string)
  (f : FilterOptions) :
  getFilter key' (withFilter key value f) =
    if String.eqb (keyName key) (keyName key') then value else getFilter key' f.
Proof. destruct key, key'; reflexivity. Qed.

(** X3.  [handleFilterChange] sets the field of its key and no other
    field or cell; the request that [applyFilters] then issues carries
    that key, with the new value, exactly when the value is not empty. *)
Theorem handleFilterChange_then_apply
  (key key' : FilterKey) (value : string) (st : State) :
  let st1 := handleFilterChange key value st in
  getFilter key (filters st1) = value /\
  (key' <> key -> getFilter key' (filters st1) = getFilter key' (filters st)) /\
  potentialMatches st1 = potentialMatches st /\
  currentIndex st1 = currentIndex st /\
  swiping st1 = swiping st /\
  snd (applyFilters st1) =
    [ApiGetPotentialMatches (searchParams (Some (filters st1)))] /\
  (forall v,
     In (keyName key, v) (searchParams (Some (filters st1)))
     <-> v = value /\ value <> "").
Proof.
  intros st1. subst st1. unfold handleFilterChange.
  change (filters (setFilters (withFilter key value) st))
    with (withFilter key value (filters st)).
  split; [|split].
  - rewrite getFilter_withFilter. now rewrite String.eqb_refl.
  - intros Hne. rewrite getFilter_withFilter.
    destruct (String.eqb_spec (keyName key) (keyName key')) as [E|_];
      [|reflexivity].
    destruct key, key'; try discriminate E; now contradiction Hne.
  - split; [reflexivity|]. split; [reflexivity|]. split; [reflexivity|].
    split; [reflexivity|]. intros v. split.
    + intros Hin. apply searchParams_sound in Hin as (Hv & k2 & Hk & ->).
      assert (k2 = key) as -> by (destruct k2, key; try discriminate Hk; reflexivity).
      rewrite getFilter_withFilter, String.eqb_refl in *. now split.
    + intros [-> Hv].
      pose proof (searchParams_complete (withFilter key value (filters st)) key) as H.
      rewrite getFilter_withFilter, String.eqb_refl in H. now apply H.
Qed.

(** X4.  Clearing the filters does what applying an all-empty filter set
    does: the same state and the same, unfiltered, request; the Refresh
    button issues the unfiltered request whatever the filters are, and
    leaves the state alone. *)
Theorem clearFilters_is_apply_empty (st : State) :
  clearFilters st = applyFilters (setFilters (fun _ => noFilters) st) /\
  snd (clearFilters st) = [ApiGetPotentialMatches []] /\
  filters (fst (clearFilters st)) = noFilters /\
  refresh st = (st, [ApiGetPotentialMatches []]).
Proof. repeat split. Qed.

Lemma step_cursor (st : State) (ev : Event) :
  let n st := Z.of_nat (List.length (potentialMatches st)) in
  0 <= currentIndex st /\ (currentIndex st < n st \/ (currentIndex st = 0 /\ n st = 0)) ->
  0 <= currentIndex (step st ev) /\
  (currentIndex (step st ev) < n (step st ev) \/
   (currentIndex (step st ev) = 0 /\ n (step st ev) = 0)).
Proof.
  intros n. subst n. cbv beta. intros [H0 Hr].
  destruct ev; simpl; try (split; assumption).
  - destruct r as [data|]; simpl; [|split; assumption].
    split; [lia|]. destruct data; simpl; [right; split; reflexivity|left; lia].
  - unfold handleSwipe, handleSwipe_begin.
    destruct (swiping st || _); [split; assumption|].
    destruct (Js.index _ _); [|split; assumption].
    unfold handleSwipe_swiped. destruct swipe as [m|msg]; [|split; assumption].
    destruct (Z.ltb_spec (currentIndex st)
                (Z.of_nat (List.length (potentialMatches st)) - 1)); simpl.
    + split; [lia|left; lia].
    + destruct refetch as [data|]; simpl; [|split; assumption].
      split; [lia|]. destruct data; simpl; [right; split; reflexivity|left; lia].
Qed.

(** X5.  Whatever the sequence of fetches, filter actions and completed
    swipe decisions, the cursor is a valid index of the batch whenever the
    batch is not empty (and zero when it is): a current candidate exists,
    and the "No more profiles!" screen shows exactly when the batch is
    empty. *)
Theorem feed_cursor_in_range (evs : list Event) :
  let st := run evs init in
  0 <= currentIndex st /\
  (potentialMatches st = [] -> currentIndex st = 0) /\
  (potentialMatches st <> [] ->
   exists currentUser,
     Js.index (potentialMatches st) (currentIndex st) = Some currentUser) /\
  (noMoreProfiles st = true <-> potentialMatches st = []).
Proof.
  assert (Hinv : forall st0,
            0 <= currentIndex st0 /\
            (currentIndex st0 < Z.of_nat (List.length (potentialMatches st0)) \/
             (currentIndex st0 = 0 /\
              Z.of_nat (List.length (potentialMatches st0)) = 0)) ->
            0 <= currentIndex (run evs st0) /\
            (currentIndex (run evs st0)
               < Z.of_nat (List.length (potentialMatches (run evs st0))) \/
             (currentIndex (run evs st0) = 0 /\
              Z.of_nat (List.length (potentialMatches (run evs st0))) = 0))).
  { unfold run. induction evs as [|ev evs IH]; simpl; intros st0 H0; [exact H0|].
    apply IH. now apply step_cursor. }
  intros st. subst st.
  destruct (Hinv init) as [H0 Hr]; [simpl; lia|].
  set (st := run evs init) in *.
  split; [exact H0|]. split; [|split].
  - intros He. rewrite He in Hr. simpl in Hr. lia.
  - intros Hne. apply index_in_range.
    destruct (potentialMatches st); [contradiction|simpl in *; lia].
  - unfold noMoreProfiles. rewrite orb_true_iff, Z.eqb_eq, Z.leb_le. split.
    + intros H. destruct (potentialMatches st); [reflexivity|simpl in *; lia].
    + intros ->. now left.
Qed.

Lemma handleFilterChange_then_apply_witness :
  let st1 := handleFilterChange kSkills "rust" (Sample.feedAt 0 false) in
  getFilter kLocation (filters st1) = "" /\
  snd (applyFilters st1) = [ApiGetPotentialMatches [("skills", "rust")]].
Proof.
  intros st1.
  pose proof (handleFilterChange_then_apply kSkills kLocation "rust"
                (Sample.feedAt 0 false)) as (_ & Hother & _ & _ & _ & Hreq & _).
  split; [apply Hother; discriminate|exact Hreq].
Defined.

Lemma feed_cursor_in_range_witness :
  let evs := [Mounted; FetchResolved (FetchOk [Sample.ada; Sample.bob]);
              Swiped like (SwipeOk false) FetchFailed;
              Swiped pass (SwipeOk true) (FetchOk [Sample.cy])] in
  Js.index (potentialMatches (run evs init)) (currentIndex (run evs init))
    = Some Sample.cy.
Proof.
  intros evs.
  pose proof (feed_cursor_in_range evs) as (_ & _ & Hcur & _).
  destruct Hcur as (u & Hu); [discriminate|].
  rewrite Hu. vm_compute in Hu. symmetry. exact Hu.
Defined.

End Filters.

(** ** The conversation list *)

Section ConversationList.
Import Matches.

Lemma fold_unread_shift (chats : list Chat) (acc : Z) :
  fold_left (fun total chat => total + unreadOrZero chat) chats acc =
    acc + getTotalUnreadCount chats.
Proof.
  unfold getTotalUnreadCount. revert acc.
  induction chats as [|c chats IH]; intros acc; simpl; [lia|].
  rewrite (IH (acc + unreadOrZero c)), (IH (unreadOrZero c)). lia.
Qed.

Lemma getTotalUnreadCount_cons (c : Chat) (chats : list Chat) :
  getTotalUnreadCount (c :: chats) = unreadOrZero c + getTotalUnreadCount chats.
Proof.
  unfold getTotalUnreadCount at 1. simpl. now rewrite fold_unread_shift.
Qed.

Lemma unreadOrZero_value (c : Chat) :
  unreadOrZero c = match unreadCount c with Some n => n | None => 0 end.
Proof.
  unfold unreadOrZero. destruct (unreadCount c) as [n|]; [|reflexivity].
  destruct (Z.eqb_spec n 0); congruence.
Qed.

(** X6.  The unread total of the Chats tab is the sum of the unread counts,
    a conversation without a count adding nothing; it is additive over
    concatenation, and when no count is negative the badge condition
    [total > 0] holds exactly when some conversation has a positive
    count. *)
Theorem getTotalUnreadCount_badge (chats more : list Chat) :
  getTotalUnreadCount [] = 0 /\
  getTotalUnreadCount (chats ++ more) =
    getTotalUnreadCount chats + getTotalUnreadCount more /\
  (Forall (fun c => forall n, unreadCount c = Some n -> 0 <= n) chats ->
   0 <= getTotalUnreadCount chats /\
   (0 < getTotalUnreadCount chats <->
    exists c n, In c chats /\ unreadCount c = Some n /\ 0 < n)).
Proof.
  split; [reflexivity|]. split.
  - induction chats as [|c chats IH]; [reflexivity|].
    simpl app. rewrite !getTotalUnreadCount_cons, IH. lia.
  - induction 1 as [|c chats Hc Hall IH].
    + split; [reflexivity|]. split; [intros H; inversion H|].
      intros (c & n & [] & _).
    + rewrite getTotalUnreadCount_cons, unreadOrZero_value.
      destruct IH as [Hnn Hiff].
      destruct (unreadCount c) as [n|] eqn:En.
      * specialize (Hc n eq_refl). split; [lia|]. split.
        -- intros Hpos. destruct (Z.eq_dec n 0) as [->|Hn].
           ++ destruct (proj1 Hiff ltac:(lia)) as (c' & n' & Hin & He & Hp).
              exists c', n'. repeat split; auto. now right.
           ++ exists c, n. repeat split; [now left|exact En|lia].
        -- intros (c' & n' & [<-|Hin] & He & Hp).
           ++ rewrite En in He. injection He as ->. lia.
           ++ assert (0 < getTotalUnreadCount chats) by (apply Hiff; eauto).
              lia.
      * split; [lia|]. split.
        -- intros Hpos. destruct (proj1 Hiff ltac:(lia)) as (c' & n' & Hin & He & Hp).
           exists c', n'. repeat split; auto. now right.
        -- intros (c' & n' & [<-|Hin] & He & Hp).
           ++ congruence.
           ++ assert (0 < getTotalUnreadCount chats) by (apply Hiff; eauto).
              lia.
Qed.

Lemma getTotalUnreadCount_badge_witness :
  getTotalUnreadCount
    [Sample.chatWith "c1" ["me"; "you"] (Some 2);
     Sample.chatWith "c2" ["me"; "yu"] None;
     Sample.chatWith "c3" ["me"; "yo"] (Some 0)] = 2
  /\ 0 <= getTotalUnreadCount [Sample.chatWith "c1" ["me"; "you"] (Some 2)].
Proof.
  pose proof (getTotalUnreadCount_badge
                [Sample.chatWith "c1" ["me"; "you"] (Some 2)]
                [Sample.chatWith "c2" ["me"; "yu"] None;
                 Sample.chatWith "c3" ["me"; "yo"] (Some 0)])
    as (_ & Hadd & Hnn).
  split; [exact Hadd|].
  apply Hnn. repeat constructor. intros n [= <-]. lia.
Defined.

(** A conversation has the match among its participants. *)
Lemma hasParticipant_iff (m : Match) (c : Chat) :
  existsb (fun p => Js.strictEq (participant_id p) (match_id m)) (participants c)
    = true
  <-> exists p, In p (participants c) /\ participant_id p = match_id m.
Proof.
  rewrite existsb_exists. split; intros (q & Hin & Hq); exists q; split; auto;
    now apply strictEq_true.
Qed.

(** X7.  The Message button of a match opens the first conversation, in
    list order, that has the match among its participants; when no
    conversation has, it opens nothing and reports that the chat is not
    available. *)
Theorem messageClick_first_chat
  (m : Match) (before after : list Chat) (c : Chat) (chats : list Chat) :
  ((forall b, In b before ->
      ~ exists p, In p (participants b) /\ participant_id p = match_id m) ->
   (exists p, In p (participants c) /\ participant_id p = match_id m) ->
   messageClick (before ++ c :: after) m = Navigate ("/chat/" ++ chat_id c)) /\
  ((forall b, In b chats ->
      ~ exists p, In p (participants b) /\ participant_id p = match_id m) ->
   messageClick chats m = ToastError "Chat not available yet") /\
  (forall path, messageClick chats m = Navigate path ->
     exists b, In b chats /\ path = "/chat/" ++ chat_id b /\
       exists p, In p (participants b) /\ participant_id p = match_id m).
Proof.
  unfold messageClick, handleChatClick. split; [|split].
  - intros Hbefore Hc.
    replace (find _ (before ++ c :: after)) with (Some c); [reflexivity|].
    symmetry. induction before as [|b before IH]; simpl.
    + apply hasParticipant_iff in Hc. now rewrite Hc.
    + destruct (existsb _ (participants b)) eqn:E.
      * apply hasParticipant_iff in E. exfalso.
        apply (Hbefore b); [now left|exact E].
      * apply IH. intros b' Hb'. apply Hbefore. now right.
  - intros Hnone.
    destruct (find _ chats) as [b|] eqn:E; [|reflexivity].
    apply find_some in E as [Hin Hb]. apply hasParticipant_iff in Hb.
    exfalso. now apply (Hnone b).
  - intros path. destruct (find _ chats) as [b|] eqn:E; [|discriminate].
    intros [= <-]. apply find_some in E as [Hin Hb].
    exists b. split; [exact Hin|]. split; [reflexivity|].
    now apply hasParticipant_iff.
Qed.

Lemma messageClick_first_chat_witness :
  messageClick
    [Sample.chatWith "c1" ["me"; "ann"] None;
     Sample.chatWith "c2" ["me"; "you"] None;
     Sample.chatWith "c3" ["you"; "me"] None] (Sample.matched "you")
    = Navigate "/chat/c2" /\
  messageClick [Sample.chatWith "c1" ["me"; "ann"] None] (Sample.matched "you")
    = ToastError "Chat not available yet".
Proof.
  pose proof (messageClick_first_chat (Sample.matched "you")
                [Sample.chatWith "c1" ["me"; "ann"] None]
                [Sample.chatWith "c3" ["you"; "me"] None]
                (Sample.chatWith "c2" ["me"; "you"] None)
                [Sample.chatWith "c1" ["me"; "ann"] None])
    as (Hfirst & Hnone & _).
  assert (Hno : forall b,
            In b [Sample.chatWith "c1" ["me"; "ann"] None] ->
            ~ exists p, In p (participants b) /\
                        participant_id p = match_id (Sample.matched "you")).
  { intros b [<-|[]] (q & [<-|[<-|[]]] & Hq); discriminate Hq. }
  split.
  - apply Hfirst; [exact Hno|].
    exists (Sample.member "you"). split; [right; now left|reflexivity].
  - apply Hnone. exact Hno.
Defined.

(** X8.  The two lists of the screen are loaded together or not at all:
    they are replaced when both requests succeed; when either fails both
    keep their old content, even if the other request succeeded, and an
    error is shown; loading ends in every case. *)
Theorem fetchData_all_or_nothing
  (matchesResponse : option (list Match)) (chatsResponse : option (list Chat))
  (st : State) :
  let st' := fst (fetchData_resolved matchesResponse chatsResponse st) in
  let fx := snd (fetchData_resolved matchesResponse chatsResponse st) in
  loading st' = false /\ activeTab st' = activeTab st /\
  (forall ms cs, matchesResponse = Some ms -> chatsResponse = Some cs ->
     matches st' = ms /\ chats st' = cs /\ fx = []) /\
  (matchesResponse = None \/ chatsResponse = None ->
     matches st' = matches st /\ chats st' = chats st /\
     In (ToastError "Failed to load matches and chats") fx).
Proof.
  destruct matchesResponse as [ms|], chatsResponse as [cs|]; simpl;
    (split; [reflexivity|]); (split; [reflexivity|]); split;
    try (intros ? ? [=] [=]; subst; repeat split);
    try (intros ? ? ?; discriminate);
    try (intros [H|H]; discriminate H);
    try (intros _; repeat split; right; now left).
Qed.

Lemma fetchData_all_or_nothing_witness :
  matches (fst (fetchData_resolved (Some [Sample.matched "you"]) None init)) = [] /\
  matches (fst (fetchData_resolved (Some [Sample.matched "you"]) (Some []) init))
    = [Sample.matched "you"].
Proof.
  pose proof (fetchData_all_or_nothing (Some [Sample.matched "you"]) None init)
    as (_ & _ & _ & Hfail).
  pose proof (fetchData_all_or_nothing (Some [Sample.matched "you"]) (Some []) init)
    as (_ & _ & Hok & _).
  split.
  - now destruct (Hfail (or_intror eq_refl)) as (H & _).
  - now destruct (Hok _ _ eq_refl eq_refl) as (H & _).
Defined.

End ConversationList.

(** ** The other participant *)

Section OtherParticipant.

Lemma find_first {A : Type} (f : A -> bool) (l : list A) (x : A) :
  find f l = Some x ->
  exists before after,
    l = (before ++ x :: after)%list /\ f x = true /\
    forall b, In b before -> f b = false.
Proof.
  induction l as [|a l IH]; simpl; [discriminate|].
  destruct (f a) eqn:E.
  - intros [= ->]. exists [], l. repeat split; [exact E|intros b []].
  - intros H. destruct (IH H) as (before & after & -> & Hx & Hb).
    exists (a :: before), after. repeat split; [exact Hx|].
    intros b [<-|Hin]; auto.
Qed.

(** X9.  The participant shown in the chat header is the first participant
    of the loaded conversation whose id is not the viewer's, never the
    viewer; there is none exactly when the conversation or the user is
    missing or every participant has the viewer's id. *)
Theorem getOtherParticipant_not_viewer (p : Chat.Props) (st : Chat.State) :
  (forall q, Chat.getOtherParticipant p st = Some q ->
     exists c uid before after,
       Chat.chat st = Some c /\ Chat.userId p = Some uid /\
       Chat.participants c = (before ++ q :: after)%list /\
       Chat.participant_id q <> uid /\
       forall b, In b before -> Chat.participant_id b = uid) /\
  (Chat.getOtherParticipant p st = None <->
   Chat.chat st = None \/ Chat.userId p = None \/
   exists c uid,
     Chat.chat st = Some c /\ Chat.userId p = Some uid /\
     forall q, In q (Chat.participants c) -> Chat.participant_id q = uid).
Proof.
  unfold Chat.getOtherParticipant.
  destruct (Chat.chat st) as [c|]; [|split; [discriminate|tauto]].
  destruct (Chat.userId p) as [uid|]; [|split; [discriminate|tauto]].
  split.
  - intros q Hq. apply find_first in Hq as (before & after & Hl & Hx & Hb).
    exists c, uid, before, after. repeat split; auto.
    + now apply negb_true_iff, strictEq_false in Hx.
    + intros b Hin. specialize (Hb b Hin).
      now apply negb_false_iff, strictEq_true in Hb.
  - split.
    + intros Hn. right. right. exists c, uid. repeat split.
      intros q Hin. pose proof (find_none _ _ Hn q Hin) as Hq.
      now apply negb_false_iff, strictEq_true in Hq.
    + intros [H|[H|(c' & uid' & [= <-] & [= <-] & Hall)]]; try discriminate.
      destruct (find _ _) as [q|] eqn:E; [|reflexivity].
      apply find_some in E as [Hin Hq].
      apply negb_true_iff, strictEq_false in Hq. now specialize (Hall q Hin).
Qed.

Lemma getOtherParticipant_not_viewer_witness :
  let me := {| Chat.participant_id := "me"; Chat.participant_name := "Me";
               Chat.presence := Sample.nobody |} in
  let you := {| Chat.participant_id := "you"; Chat.participant_name := "Yu";
                Chat.presence := Sample.nobody |} in
  let st := Chat.setChat
              (fun _ => Some {| Chat.chat_id := "c1";
                                Chat.participants := [me; you];
                                Chat.messages := [] |}) Chat.init in
  Chat.getOtherParticipant Sample.viewer st = Some you /\
  Chat.getOtherParticipant Sample.viewer Chat.init = None.
Proof.
  intros me you st. split; [reflexivity|].
  apply (getOtherParticipant_not_viewer Sample.viewer Chat.init).
  now left.
Defined.

(** X10.  For the same participants, the conversation list (which takes
    the first participant) names the participant the chat header names
    exactly when the viewer is not listed first; when the viewer is listed
    first the conversation list shows the viewer. *)
Theorem conversation_list_other_participant
  (mc : Matches.Chat) (p : Chat.Props) (st : Chat.State) (cd : Chat.ChatData)
  (uid : string) :
  Chat.chat st = Some cd -> Chat.userId p = Some uid ->
  map Matches.participant_id (Matches.participants mc)
    = map Chat.participant_id (Chat.participants cd) ->
  (option_map Matches.participant_id (Matches.getOtherParticipant mc)
     = option_map Chat.participant_id (Chat.getOtherParticipant p st)
   <-> hd_error (map Matches.participant_id (Matches.participants mc)) <> Some uid) /\
  (hd_error (map Matches.participant_id (Matches.participants mc)) = Some uid ->
   option_map Matches.participant_id (Matches.getOtherParticipant mc) = Some uid).
Proof.
  intros Hc Hu Hids.
  unfold Matches.getOtherParticipant, Chat.getOtherParticipant, Js.index.
  rewrite Hc, Hu. simpl.
  destruct (Matches.participants mc) as [|x xs];
    destruct (Chat.participants cd) as [|y ys]; try discriminate Hids.
  - simpl. split; [split; [discriminate|reflexivity]|discriminate].
  - simpl in Hids. injection Hids as Hxy Hrest. simpl.
    destruct (Js.strictEq (Chat.participant_id y) uid) eqn:E; simpl.
    + apply strictEq_true in E. split; [|congruence]. split.
      * intros H. exfalso.
        destruct (find _ ys) as [z|] eqn:Ez; simpl in H; [|discriminate H].
        apply find_some in Ez as [_ Hz].
        apply negb_true_iff, strictEq_false in Hz. congruence.
      * intros H. exfalso. apply H. congruence.
    + apply strictEq_false in E. split; [|congruence]. split.
      * intros _. congruence.
      * intros _. congruence.
Qed.

Lemma conversation_list_other_participant_witness :
  let me := {| Chat.participant_id := "me"; Chat.participant_name := "Me";
               Chat.presence := Sample.nobody |} in
  let you := {| Chat.participant_id := "you"; Chat.participant_name := "Yu";
                Chat.presence := Sample.nobody |} in
  let cd := {| Chat.chat_id := "c1"; Chat.participants := [me; you];
               Chat.messages := [] |} in
  option_map Matches.participant_id
    (Matches.getOtherParticipant (Sample.chatWith "c1" ["me"; "you"] None))
    = Some "me".
Proof.
  intros me you cd.
  apply (conversation_list_other_participant
           (Sample.chatWith "c1" ["me"; "you"] None) Sample.viewer
           (Chat.setChat (fun _ => Some cd) Chat.init) cd "me");
    reflexivity.
Defined.

End OtherParticipant.

(** ** The timeline of the chat screen *)

Section Timeline.
Import Chat.

Lemma step_chat (p : Props) (st : State) (ev : Event) :
  (forall d, ev <> FetchResolved (FetchOk d)) ->
  chat (step p st ev) = chat st \/
  exists m, chat (step p st ev) = appendMessage m (chat st).
Proof.
  intros Hev. destruct ev; simpl.
  - unfold mount, subscriptionEffect.
    destruct (socket p), (Js.truthyString (chatId p)); simpl; auto.
  - destruct r as [d|]; [now contradiction (Hev d)|simpl; auto].
  - unfold deliver. destruct (listening st); [|auto].
    destruct e; simpl.
    + unfold on_receive_message. destruct (Js.strictEqOpt _ _); simpl; eauto.
    + unfold on_user_typing. destruct (_ && _); simpl; auto.
    + unfold on_user_stop_typing. destruct (_ && _); simpl; auto.
  - unfold onChange, handleTyping. simpl.
    destruct (negb (typing st) && socket p), (Js.truthyString (chatId p));
      simpl; auto.
  - unfold idle. destruct (typingTimeout st) as [tm|]; [|auto].
    unfold typingTimeout_fired.
    destruct (closure_typing tm && socket p), (Js.truthyString (chatId p));
      simpl; auto.
  - unfold handleSendMessage_begin.
    destruct (_ || _), (Js.truthyString (chatId p)); simpl; auto.
    destruct (typing st && socket p); simpl; auto.
  - destruct r; simpl; eauto.
  - auto.
Qed.

(** X11.  Unless a history fetch succeeds in between, no event removes or
    reorders a message of the timeline: after any sequence of live events,
    keystrokes, timer expiries, submissions and post responses, the loaded
    timeline is the earlier one with messages appended, for the same
    conversation and participants; and a timeline that is not loaded stays
    unloaded. *)
Theorem timeline_only_grows (p : Props) (evs : list Event) (st : State) :
  Forall (fun ev => forall d, ev <> FetchResolved (FetchOk d)) evs ->
  (chat st = None -> chat (run p evs st) = None) /\
  (forall c, chat st = Some c ->
     exists c' extra,
       chat (run p evs st) = Some c' /\
       messages c' = (messages c ++ extra)%list /\
       chat_id c' = chat_id c /\ participants c' = participants c).
Proof.
  unfold run. intros Hall. revert st.
  induction Hall as [|ev evs Hev Hall IH]; intros st; simpl.
  - split; [auto|]. intros c Hc. exists c, []. now rewrite app_nil_r.
  - destruct (IH (step p st ev)) as [IHn IHs].
    destruct (step_chat p st ev Hev) as [E|[m E]].
    + rewrite E in IHn, IHs. now split.
    + split.
      * intros Hn. apply IHn. rewrite E, Hn. reflexivity.
      * intros c Hc. rewrite E, Hc in IHs. simpl in IHs.
        destruct (IHs _ eq_refl) as (c' & extra & H1 & H2 & H3 & H4).
        exists c', (m :: extra). simpl in *. repeat split; auto.
        rewrite H2, <- app_assoc. reflexivity.
Qed.

Lemma timeline_only_grows_witness :
  timeline (run Sample.viewer
              [Pushed 5000 (receive_message (Sample.pushed "c1"));
               Changed 6000 "yo"; Submitted]
              (Sample.ready "" false))
    = Some [Sample.hello; liveMessage 5000 (Sample.pushed "c1")] /\
  chat (run Sample.viewer
          [Mounted; Pushed 5000 (receive_message (Sample.pushed "c1"))] init)
    = None.
Proof.
  split; [reflexivity|].
  apply (timeline_only_grows Sample.viewer
           [Mounted; Pushed 5000 (receive_message (Sample.pushed "c1"))] init).
  - repeat constructor; intros d H; discriminate H.
  - reflexivity.
Defined.

End Timeline.

(** ** Rendering of the timeline *)

Section RenderedTimeline.
Import Chat.
Context {host : Js.Host}.

Lemma bubblesOf_app (a b : list Node) :
  Spec.bubblesOf (a ++ b) = (Spec.bubblesOf a ++ Spec.bubblesOf b)%list.
Proof.
  induction a as [|[l|m own] a IH]; simpl; [reflexivity|exact IH|now rewrite IH].
Qed.

Lemma separatorsOf_app (a b : list Node) :
  Spec.separatorsOf (a ++ b) = (Spec.separatorsOf a + Spec.separatorsOf b)%nat.
Proof.
  induction a as [|[l|m own] a IH]; simpl; [reflexivity|now rewrite IH|exact IH].
Qed.

Lemma renderMessage_parts (p : Props) (now : Z) (all : list Message)
  (m : Message) (i : Z) :
  Spec.bubblesOf (renderMessage p now all m i) =
    [(m, Js.strictEqOpt (Some (sender_id (sender m))) (userId p))] /\
  (Spec.separatorsOf (renderMessage p now all m i) <= 1)%nat.
Proof.
  unfold renderMessage. destruct (shouldShowDateSeparator _ _); simpl; auto.
Qed.

Lemma render_from_parts (p : Props) (now : Z) (all rest : list Message) :
  forall i,
    Spec.bubblesOf (List.concat (Js.mapiFrom (renderMessage p now all) i rest)) =
      map (fun m => (m, Js.strictEqOpt (Some (sender_id (sender m))) (userId p)))
        rest /\
    (Spec.separatorsOf (List.concat (Js.mapiFrom (renderMessage p now all) i rest))
     <= List.length rest)%nat.
Proof.
  induction rest as [|m rest IH]; intros i; simpl; [auto|].
  rewrite bubblesOf_app, separatorsOf_app.
  destruct (renderMessage_parts p now all m i) as [Hb Hs].
  destruct (IH (i + 1)) as [IHb IHs].
  rewrite Hb, IHb. split; [reflexivity|lia].
Qed.

(** X12.  Whatever the timestamps, the rendering shows every message of
    the timeline exactly once and in timeline order, each marked as own
    exactly when its sender id is the viewer's id; it has at most one
    separator per message, and a timeline that is not empty starts with a
    separator. *)
Theorem renderMessages_keeps_messages (p : Props) (now : Z) (msgs : list Message) :
  Spec.bubblesOf (renderMessages p now msgs) =
    map (fun m => (m, Js.strictEqOpt (Some (sender_id (sender m))) (userId p)))
      msgs /\
  (Spec.separatorsOf (renderMessages p now msgs) <= List.length msgs)%nat /\
  (forall m rest, msgs = m :: rest ->
     exists tail,
       renderMessages p now msgs =
         DateSeparator (formatDateSeparator now (timestamp m))
         :: Bubble m (Js.strictEqOpt (Some (sender_id (sender m))) (userId p))
         :: tail).
Proof.
  unfold renderMessages, Js.mapi.
  destruct (render_from_parts p now msgs msgs 0) as [Hb Hs].
  split; [exact Hb|]. split; [exact Hs|].
  intros m rest ->. simpl. eexists. reflexivity.
Qed.

End RenderedTimeline.

Section RenderedTimelineExample.
Import Chat.

Lemma renderMessages_keeps_messages_witness :
  let msgs := [Sample.at_ "172801000"; Sample.at_ "1000"; Sample.at_ "172802000"] in
  Spec.bubblesOf (@renderMessages Js.utcHost Sample.viewer 172850000 msgs)
    = [(Sample.at_ "172801000", false); (Sample.at_ "1000", false);
       (Sample.at_ "172802000", false)] /\
  Spec.separatorsOf (@renderMessages Js.utcHost Sample.viewer 172850000 msgs) = 3%nat.
Proof.
  intros msgs.
  pose proof (@renderMessages_keeps_messages Js.utcHost Sample.viewer 172850000 msgs)
    as (Hb & _ & _).
  split; [exact Hb|reflexivity].
Defined.

End RenderedTimelineExample.

(** ** What is posted, and when *)

Section PostedContent.
Import Chat.

Lemma trimStart_shape (s : string) :
  Js.trimStart s = "" \/
  exists c r, Js.trimStart s = String c r /\ Js.isWhiteSpace c = false.
Proof.
  induction s as [|c s IH]; simpl; [now left|].
  destruct (Js.isWhiteSpace c) eqn:E; [exact IH|].
  right. now exists c, s.
Qed.

Lemma trimStart_empty_iff (s : string) :
  Js.trimStart s = "" <-> Spec.allWhiteSpace s = true.
Proof.
  induction s as [|c s IH]; simpl; [tauto|].
  destruct (Js.isWhiteSpace c); simpl; [exact IH|].
  split; discriminate.
Qed.

Lemma trimEnd_head (c : ascii) (r : string) :
  Js.isWhiteSpace c = false -> Js.trimEnd (String c r) = String c (Js.trimEnd r).
Proof. intros H. simpl. now rewrite H. Qed.

Lemma trimEnd_idempotent (s : string) : Js.trimEnd (Js.trimEnd s) = Js.trimEnd s.
Proof.
  induction s as [|c s IH]; simpl; [reflexivity|].
  destruct (Js.isWhiteSpace c && (Js.trimEnd s =? "")%string) eqn:E;
    [reflexivity|].
  simpl. rewrite IH, E. reflexivity.
Qed.

Lemma trim_idempotent (s : string) : Js.trim (Js.trim s) = Js.trim s.
Proof.
  unfold Js.trim.
  destruct (trimStart_shape s) as [E|(c & r & E & Hc)]; rewrite E.
  - reflexivity.
  - rewrite (trimEnd_head c r Hc). simpl Js.trimStart. rewrite Hc.
    rewrite <- (trimEnd_head c r Hc). apply trimEnd_idempotent.
Qed.

Lemma trim_empty_iff (s : string) :
  Js.trim s = "" <-> Spec.allWhiteSpace s = true.
Proof.
  rewrite <- trimStart_empty_iff. unfold Js.trim.
  destruct (trimStart_shape s) as [E|(c & r & E & Hc)]; rewrite E.
  - simpl. tauto.
  - rewrite (trimEnd_head c r Hc). split; discriminate.
Qed.

(** X13.  Whenever a submission goes through, the content posted to the
    API is not empty and has no white space at its ends (the input was
    not made of white space only), it is posted once, for the open
    conversation, and on success the real-time emission carries that same
    conversation id and content. *)
Theorem posted_content_is_trimmed
  (p : Props) (st mid : State) (k : Pending) (data : Message) :
  snd (handleSendMessage_begin p st) = Some k ->
  messageContent k <> "" /\
  Js.trim (messageContent k) = messageContent k /\
  Spec.allWhiteSpace (newMessage st) = false /\
  chatId p = Some (pending_chatId k) /\
  filter isApiCall (snd (fst (handleSendMessage_begin p st))) =
    [ApiPostMessage (pending_chatId k) (messageContent k)] /\
  (socket p = true ->
   snd (handleSendMessage_resolved p k (PostOk data) mid) =
     [Emit_send_message (pending_chatId k) (messageContent k)]).
Proof.
  unfold handleSendMessage_begin.
  destruct ((Js.trim (newMessage st) =? "")%string) eqn:Et; simpl;
    [destruct (Js.truthyString (chatId p)); discriminate|].
  destruct (sending st); simpl;
    [destruct (Js.truthyString (chatId p)); discriminate|].
  destruct (chatId p) as [c|] eqn:Ec; simpl; [|discriminate].
  destruct (String.eqb_spec c ""); [discriminate|].
  apply String.eqb_neq in Et.
  destruct (typing st && socket p); simpl; intros [= <-]; simpl;
    (split; [exact Et|]); (split; [apply trim_idempotent|]);
    (split; [destruct (Spec.allWhiteSpace (newMessage st)) eqn:Ew;
             [apply trim_empty_iff in Ew; contradiction|reflexivity]|]);
    (split; [reflexivity|]); (split; [reflexivity|]);
    intros ->; reflexivity.
Qed.

Lemma posted_content_is_trimmed_witness :
  filter isApiCall
    (snd (fst (handleSendMessage_begin Sample.viewer (Sample.ready "  hi there " true))))
    = [ApiPostMessage "c1" "hi there"].
Proof.
  pose proof (posted_content_is_trimmed Sample.viewer
                (Sample.ready "  hi there " true) init
                {| pending_chatId := "c1"; messageContent := "hi there" |}
                Sample.hello eq_refl) as (_ & _ & _ & _ & H & _).
  exact H.
Defined.

Lemma step_sending (p : Props) (st : State) (ev : Event) :
  sending st = true -> (forall k r, ev <> PostResolved k r) ->
  sending (step p st ev) = true /\
  forall c m, ~ In (ApiPostMessage c m) (stepEffects p st ev).
Proof.
  intros Hs Hev. destruct ev; simpl.
  - unfold mount, fetchEffect, subscriptionEffect.
    destruct (socket p), (Js.truthyString (chatId p)); simpl;
      (split; [exact Hs|]); intros c m H;
      repeat (destruct H as [H|H]; try discriminate H); exact H.
  - destruct r; simpl; (split; [exact Hs|]); intros c m H;
      repeat (destruct H as [H|H]; try discriminate H); exact H.
  - split; [|intros c m []].
    unfold deliver. destruct (listening st); [|exact Hs].
    destruct e; simpl.
    + unfold on_receive_message. now destruct (Js.strictEqOpt _ _).
    + unfold on_user_typing. now destruct (_ && _).
    + unfold on_user_stop_typing. now destruct (_ && _).
  - unfold onChange, handleTyping. simpl.
    destruct (negb (typing st) && socket p), (Js.truthyString (chatId p));
      simpl; (split; [exact Hs|]); intros c m H;
      repeat (destruct H as [H|H]; try discriminate H); exact H.
  - unfold idle. destruct (typingTimeout st) as [tm|]; [|split; [exact Hs|intros c m []]].
    unfold typingTimeout_fired.
    destruct (closure_typing tm && socket p), (Js.truthyString (chatId p));
      simpl; (split; [exact Hs|]); intros c m H;
      repeat (destruct H as [H|H]; try discriminate H); exact H.
  - unfold handleSendMessage_begin. rewrite Hs, orb_true_r.
    destruct (Js.truthyString (chatId p)); simpl;
      (split; [exact Hs|]); intros c m H;
      repeat (destruct H as [H|H]; try discriminate H); exact H.
  - now contradiction (Hev k r).
  - split; [exact Hs|intros c m []].
Qed.

(** X14.  At most one post is in flight: from a state in which a send is
    pending, no sequence of events other than the response of that post
    (further submissions, keystrokes, live events, timer expiries, ...)
    issues another post, and the send stays pending. *)
Theorem one_post_in_flight (p : Props) (evs : list Event) (st : State) :
  sending st = true ->
  Forall (fun ev => forall k r, ev <> PostResolved k r) evs ->
  sending (run p evs st) = true /\
  forall c m, ~ In (ApiPostMessage c m) (trace p evs st).
Proof.
  unfold run. intros Hs Hall. revert st Hs.
  induction Hall as [|ev evs Hev Hall IH]; intros st Hs; simpl.
  - split; [exact Hs|intros c m []].
  - destruct (step_sending p st ev Hs Hev) as [Hs' Hfx].
    destruct (IH _ Hs') as [Hrun Htr].
    split; [exact Hrun|]. intros c m Hin.
    apply in_app_or in Hin as [Hin|Hin]; [now apply (Hfx c m)|now apply (Htr c m)].
Qed.

Lemma one_post_in_flight_witness :
  let st := step Sample.viewer (Sample.ready "hi" false) Submitted in
  sending st = true /\
  ~ In (ApiPostMessage "c1" "yo")
      (trace Sample.viewer [Changed 100 "yo"; Submitted; Submitted] st).
Proof.
  intros st.
  destruct (one_post_in_flight Sample.viewer
              [Changed 100 "yo"; Submitted; Submitted] st eq_refl) as [_ H].
  - repeat constructor; intros k r E; discriminate E.
  - split; [reflexivity|apply H].
Defined.

(** X15.  A submission does not cancel the idle timer.  When the typing
    flag is up and the pending timer closed over [typing = true] (as after
    two or more keystrokes), the submission emits typing-stopped and
    lowers the flag, and the timer, when it expires, emits typing-stopped
    a second time. *)
Theorem typing_stop_emitted_twice
  (p : Props) (c : string) (st : State) (tm : Timeout) :
  socket p = true -> chatId p = Some c -> c <> "" ->
  typing st = true -> typingTimeout st = Some tm -> closure_typing tm = true ->
  Js.trim (newMessage st) <> "" -> sending st = false ->
  let st1 := step p st Submitted in
  filter isEmission (stepEffects p st Submitted) = [Emit_typing_stop c] /\
  typing st1 = false /\
  typingTimeout st1 = Some tm /\
  stepEffects p st1 TimeoutFired = [Emit_typing_stop c].
Proof.
  intros Hs Hc Hne Ht Htm Hcl Hin Hsend st1. subst st1. simpl.
  rewrite (handleSendMessage_begin_sends p st c Hin Hsend Hc Hne).
  rewrite Ht, Hs. simpl.
  split; [reflexivity|]. split; [reflexivity|]. split; [exact Htm|].
  unfold idle. simpl. rewrite Htm. unfold typingTimeout_fired.
  rewrite Hcl, Hs, (chatId_truthy p c Hc Hne). reflexivity.
Qed.

Lemma typing_stop_emitted_twice_witness :
  filter isEmission
    (trace Sample.viewer
       [Changed 0 "h"; Changed 500 "hi"; Submitted; TimeoutFired]
       (Sample.ready "" false))
    = [Emit_typing_start "c1"; Emit_typing_stop "c1"; Emit_typing_stop "c1"].
Proof.
  assert (Hc : "c1" <> "") by discriminate.
  pose (st := run Sample.viewer [Changed 0 "h"; Changed 500 "hi"]
                (Sample.ready "" false)).
  assert (Hin : Js.trim (newMessage st) <> "") by discriminate.
  pose proof (typing_stop_emitted_twice Sample.viewer "c1" st
                {| due := 1500; closure_typing := true |}
                eq_refl eq_refl Hc eq_refl eq_refl eq_refl Hin eq_refl)
    as (H1 & _ & _ & H2).
  change (filter isEmission
            ([Emit_typing_start "c1"] ++
             stepEffects Sample.viewer st Submitted ++
             stepEffects Sample.viewer (step Sample.viewer st Submitted)
               TimeoutFired)%list
          = [Emit_typing_start "c1"; Emit_typing_stop "c1"; Emit_typing_stop "c1"]).
  rewrite !filter_app, H1, H2. reflexivity.
Defined.

End PostedContent.

(** ** The typing indicator of the other party *)

Section TypingIndicator.
Import Chat.

Lemma deliver_listening (p : Props) (now : Z) (e : SocketEvent) (st : State) :
  listening (deliver p now e st) = listening st.
Proof.
  unfold deliver. destruct (listening st) eqn:E; [|exact E].
  destruct e; simpl.
  - unfold on_receive_message. now destruct (Js.strictEqOpt _ _).
  - unfold on_user_typing. now destruct (_ && _).
  - unfold on_user_stop_typing. now destruct (_ && _).
Qed.

Lemma deliver_signal (p : Props) (now : Z) (e : SocketEvent) (st : State) :
  listening st = true ->
  otherUserTyping (deliver p now e st) =
    match Spec.typingSignal p e with
    | Some b => b
    | None => otherUserTyping st
    end.
Proof.
  intros Hl. unfold deliver. rewrite Hl. destruct e; simpl.
  - unfold on_receive_message. now destruct (Js.strictEqOpt _ _).
  - unfold on_user_typing. now destruct (_ && _).
  - unfold on_user_stop_typing. now destruct (_ && _).
Qed.

(** X16.  While the listeners are registered, the other-party-typing flag
    after a sequence of pushed events is what the last typing event of
    this conversation from someone else said: up after typing-started,
    down after typing-stopped, and as before when there was none; a
    received message does not lower it. *)
Theorem otherUserTyping_last_signal
  (p : Props) (es : list (Z * SocketEvent)) (st : State) :
  listening st = true ->
  otherUserTyping (run p (map (fun ne => Pushed (fst ne) (snd ne)) es) st) =
    match Spec.lastTyping p es with
    | Some b => b
    | None => otherUserTyping st
    end.
Proof.
  unfold run. revert st.
  induction es as [|[now e] es IH]; intros st Hl; simpl; [reflexivity|].
  rewrite IH by (now rewrite deliver_listening).
  destruct (Spec.lastTyping p es); [reflexivity|].
  now apply deliver_signal.
Qed.

Lemma otherUserTyping_last_signal_witness :
  otherUserTyping
    (run Sample.viewer
       [Pushed 1 (user_typing (Sample.typingBy "c1" "you"));
        Pushed 2 (receive_message (Sample.pushed "c1"));
        Pushed 3 (user_stop_typing (Sample.typingBy "c1" "me"))]
       (Sample.ready "" false)) = true.
Proof.
  exact (otherUserTyping_last_signal Sample.viewer
           [(1, user_typing (Sample.typingBy "c1" "you"));
            (2, receive_message (Sample.pushed "c1"));
            (3, user_stop_typing (Sample.typingBy "c1" "me"))]
           (Sample.ready "" false) eq_refl).
Defined.

End TypingIndicator.

(** ** Routes and the page frame *)

Section Routing.
Import App.

(** X17.  While the session is loading every route shows the spinner and
    redirects nowhere.  Once it is settled, every route leads, through at
    most one redirect, to a page: a public page (login, register) exactly
    when there is no user, so the guards never redirect in a loop. *)
Theorem routes_settle (a : Auth) (r : Route) :
  (loading a = true -> element a r = Spinner) /\
  (loading a = false ->
   exists page,
     settle 1 a r = Some (Show page) /\ isPublicPage page = negb (user a)).
Proof.
  destruct a as [u l]. split; simpl.
  - intros ->. destruct r; reflexivity.
  - intros ->. destruct u, r; simpl; eexists; split; reflexivity.
Qed.

Lemma routes_settle_witness :
  settle 1 {| user := false; loading := false |} index = Some (Show LoginPage) /\
  settle 1 {| user := true; loading := false |} login = Some (Show DashboardPage) /\
  element {| user := true; loading := true |} chat = Spinner.
Proof.
  split; [reflexivity|]. split; [reflexivity|].
  now apply (routes_settle {| user := true; loading := true |} chat).
Defined.

Lemma startsWith_iff (prefix s : string) :
  Js.startsWith s prefix = true <-> exists rest, s = prefix ++ rest.
Proof.
  revert s. induction prefix as [|a prefix IH]; intros s; simpl.
  - split; [intros _; now exists s|reflexivity].
  - destruct s as [|b s]; [split; [discriminate|intros (rest & H); discriminate H]|].
    rewrite andb_true_iff, IH. split.
    + intros [E (rest & ->)]. apply Ascii.eqb_eq in E. subst. now exists rest.
    + intros (rest & [= -> ->]). split; [apply Ascii.eqb_refl|now exists rest].
Qed.

(** X18.  The page frame hides the navigation bar exactly on paths that
    start with "/chat/": on every path the conversation list navigates to,
    whatever the conversation id, and not on "/matches", where the chat
    screen sends the user when its history fails to load. *)
Theorem navbar_hidden_on_chat (chatId path : string) :
  Matches.handleChatClick chatId = Matches.Navigate ("/chat/" ++ chatId) /\
  Layout.showsNavbar ("/chat/" ++ chatId) = false /\
  (Layout.showsNavbar path = false <-> exists rest, path = "/chat/" ++ rest) /\
  Layout.showsNavbar "/matches" = true.
Proof.
  split; [reflexivity|]. split; [reflexivity|]. split; [|reflexivity].
  unfold Layout.showsNavbar, Layout.isChatPage.
  rewrite negb_false_iff. apply startsWith_iff.
Qed.

End Routing.

(** ** The skills field of the profile form *)

Section Skills.
Import Profile.

Lemma split_not_nil (sep : ascii) (s : string) : Js.split sep s <> [].
Proof.
  induction s as [|c s IH]; simpl; [discriminate|].
  destruct (Ascii.eqb c sep); [discriminate|].
  destruct (Js.split sep s); discriminate.
Qed.

Lemma split_pieces_no_comma (s : string) :
  Forall (fun piece => Spec.hasComma piece = false) (Js.split "," s).
Proof.
  induction s as [|c s IH]; simpl.
  - repeat constructor.
  - destruct (Ascii.eqb c ",") eqn:E.
    + constructor; [reflexivity|exact IH].
    + destruct (Js.split "," s) as [|piece pieces].
      * repeat constructor. simpl. now rewrite E.
      * inversion IH as [|? ? Hp Hps]; subst.
        constructor; [|exact Hps]. simpl. now rewrite E.
Qed.

Lemma split_no_comma (a : string) :
  Spec.hasComma a = false -> Js.split "," a = [a].
Proof.
  induction a as [|c a IH]; simpl; [reflexivity|].
  destruct (Ascii.eqb c ","); simpl; [discriminate|].
  intros H. now rewrite (IH H).
Qed.

Lemma split_app_comma (a rest : string) :
  Spec.hasComma a = false ->
  Js.split "," (a ++ String "," rest) = a :: Js.split "," rest.
Proof.
  induction a as [|c a IH]; simpl; [reflexivity|].
  destruct (Ascii.eqb c ","); simpl; [discriminate|].
  intros H. now rewrite (IH H).
Qed.

Lemma hasComma_trimStart (s : string) :
  Spec.hasComma s = false -> Spec.hasComma (Js.trimStart s) = false.
Proof.
  induction s as [|c s IH]; simpl; [reflexivity|].
  intros H. apply orb_false_iff in H as [Hc Hs].
  destruct (Js.isWhiteSpace c); [now apply IH|].
  simpl. now rewrite Hc, Hs.
Qed.

Lemma hasComma_trimEnd (s : string) :
  Spec.hasComma s = false -> Spec.hasComma (Js.trimEnd s) = false.
Proof.
  induction s as [|c s IH]; simpl; [reflexivity|].
  intros H. apply orb_false_iff in H as [Hc Hs].
  destruct (Js.isWhiteSpace c && _); [reflexivity|].
  simpl. now rewrite Hc, (IH Hs).
Qed.

(** X19.  Whatever is typed in the skills field, every skill submitted is
    non-empty, has no comma and has no white space at its ends: empty
    pieces between commas are dropped. *)
Theorem parseSkills_clean (text : string) :
  Forall Spec.cleanSkill (parseSkills text) /\
  parseSkills "" = [] /\
  (Spec.allWhiteSpace text = true -> parseSkills text = []).
Proof.
  split; [|split; [reflexivity|]].
  - unfold parseSkills. apply Forall_forall. intros skill Hin.
    apply filter_In in Hin as [Hin Hne].
    apply in_map_iff in Hin as (piece & <- & Hpiece).
    pose proof (split_pieces_no_comma text) as Hnc.
    rewrite Forall_forall in Hnc. specialize (Hnc piece Hpiece).
    split; [now apply String.eqb_neq, negb_true_iff|].
    split; [|apply trim_idempotent].
    unfold Js.trim. now apply hasComma_trimEnd, hasComma_trimStart.
  - intros Hws. unfold parseSkills.
    assert (Hnc : Spec.hasComma text = false).
    { clear -Hws. induction text as [|c text IH]; simpl in *; [reflexivity|].
      apply andb_true_iff in Hws as [Hc Hws]. rewrite (IH Hws), orb_false_r.
      destruct (Ascii.eqb_spec c ","); [subst; discriminate Hc|reflexivity]. }
    rewrite (split_no_comma text Hnc). simpl.
    apply trim_empty_iff in Hws. now rewrite Hws.
Qed.

Lemma parseSkills_clean_witness :
  parseSkills " rust,, coq ,  ,ocaml" = ["rust"; "coq"; "ocaml"] /\
  parseSkills "   " = [].
Proof.
  split; [reflexivity|].
  now apply (parseSkills_clean "   ").
Defined.

Lemma append_assoc (a b c : string) : (a ++ b) ++ c = a ++ (b ++ c).
Proof. induction a as [|x a IH]; simpl; [reflexivity|now rewrite IH]. Qed.

Lemma parse_join (l : list string) :
  Forall Spec.cleanSkill l ->
  forall pre, pre = "" \/ pre = " " -> l <> [] ->
    parseSkills (pre ++ Js.join ", " l) = l.
Proof.
  induction 1 as [|a rest (Hne & Hnc & Htrim) Hrest IH]; intros pre Hpre Hnil;
    [contradiction|].
  assert (Hpa : Spec.hasComma (pre ++ a) = false)
    by (destruct Hpre as [-> | ->]; simpl; auto).
  assert (Hta : Js.trim (pre ++ a) = a)
    by (destruct Hpre as [-> | ->]; simpl; auto).
  destruct rest as [|b rest'].
  - unfold Js.join, parseSkills. simpl String.concat.
    rewrite (split_no_comma _ Hpa). simpl. rewrite Hta.
    apply String.eqb_neq in Hne. now rewrite Hne.
  - unfold Js.join. simpl String.concat.
    fold (Js.join ", " (b :: rest')).
    rewrite <- append_assoc. simpl append.
    change (String "," (String " " (Js.join ", " (b :: rest'))))
      with (String "," (" " ++ Js.join ", " (b :: rest'))).
    unfold parseSkills. rewrite (split_app_comma _ _ Hpa). simpl map.
    rewrite Hta. simpl filter.
    apply String.eqb_neq in Hne. rewrite Hne. simpl. f_equal.
    apply (IH " "); [now right|discriminate].
Qed.

(** X20.  Saving the profile form without touching the skills field
    submits the stored skills unchanged: parsing the text shown for a list
    of skills gives that list back, provided each stored skill is not
    empty, has no comma and no white space at its ends. *)
Theorem skills_round_trip (skills : list string) :
  Forall Spec.cleanSkill skills ->
  parseSkills (skillsText (Some skills)) = skills.
Proof.
  intros Hclean. unfold skillsText.
  destruct skills as [|a rest]; [reflexivity|].
  apply (parse_join (a :: rest) Hclean ""); [now left|discriminate].
Qed.

Lemma skills_round_trip_witness :
  skillsText (Some ["rust"; "type theory"; "c++"]) = "rust, type theory, c++" /\
  parseSkills "rust, type theory, c++" = ["rust"; "type theory"; "c++"].
Proof.
  split; [reflexivity|].
  apply (skills_round_trip ["rust"; "type theory"; "c++"]).
  repeat constructor; discriminate.
Defined.

(** X21.  A picture is uploaded exactly when a file was chosen whose type
    starts with "image/" and whose size is at most 5 * 1024 * 1024 bytes
    (a file of exactly that size passes); in every other case nothing is
    uploaded and the uploading flag is left as it was. *)
Theorem handleImageUpload_guard (file : option File) (uploadingImage : bool) :
  let r := handleImageUpload_begin file uploadingImage in
  (forall f, file = Some f ->
     (r = (true, [ApiUploadPicture f]) <->
      Js.startsWith (file_type f) "image/" = true /\ file_size f <= 5242880)) /\
  ((forall f, r <> (true, [ApiUploadPicture f])) ->
   fst r = uploadingImage /\ forall f, ~ In (ApiUploadPicture f) (snd r)).
Proof.
  intros r. subst r. unfold handleImageUpload_begin.
  destruct file as [f|].
  - split.
    + intros f' [= <-].
      destruct (Js.startsWith (file_type f) "image/"); simpl.
      * change (5 * 1024 * 1024) with 5242880.
        destruct (Z.ltb_spec 5242880 (file_size f)).
        -- split; [discriminate|intros [_ H']; lia].
        -- split; [intros _; split; [reflexivity|lia]|reflexivity].
      * split; [discriminate|intros [H' _]; discriminate H'].
    + destruct (Js.startsWith (file_type f) "image/"); cbn [negb].
      * destruct (5 * 1024 * 1024 <? file_size f).
        -- intros _. split; [reflexivity|]. intros f' [H|[]]; discriminate H.
        -- intros Hno. now contradiction (Hno f).
      * intros _. split; [reflexivity|]. intros f' [H|[]]; discriminate H.
  - split; [discriminate|]. intros _. split; [reflexivity|intros f []].
Qed.

Lemma handleImageUpload_guard_witness :
  let f := {| file_type := "image/png"; file_size := 5242880 |} in
  handleImageUpload_begin (Some f) false = (true, [ApiUploadPicture f]).
Proof.
  intros f.
  pose proof (handleImageUpload_guard (Some f) false) as [H _].
  apply (H f eq_refl). split; [reflexivity|]. simpl. lia.
Defined.

End Skills.

(** ** Edge cases of the presence status *)

Section StatusEdges.
Context {host : Js.Host}.

Lemma lastChar_app (s t : string) :
  t <> "" -> Js.lastChar (s ++ t) = Js.lastChar t.
Proof.
  intros Ht. induction s as [|c s IH]; simpl; [reflexivity|].
  rewrite IH. destruct (s ++ t) eqn:E; [|reflexivity].
  destruct s; simpl in E; [congruence|discriminate].
Qed.

Lemma ago_neq (x unit_ago target : string) :
  unit_ago <> "" -> Js.lastChar unit_ago <> Js.lastChar target ->
  x ++ unit_ago <> target.
Proof.
  intros Hne Hlast E. apply Hlast. rewrite <- E. symmetry.
  now apply lastChar_app.
Qed.

Lemma numToString_negative (m : Z) :
  m < 0 -> exists digits, Js.numToString (Js.Int m) = String "-" digits.
Proof.
  destruct m as [|q|q]; try lia. intros _. simpl. eexists. reflexivity.
Qed.

Lemma truthyBool_true (b : option bool) :
  Js.truthyBool b = true <-> b = Some true.
Proof. destruct b as [[|]|]; simpl; split; congruence. Qed.

Lemma truthyString_none (s : option string) :
  Js.truthyString s = None <-> s = None \/ s = Some "".
Proof.
  destruct s as [x|]; simpl; [|tauto].
  destruct (String.eqb_spec x "") as [->|Hne].
  - tauto.
  - split; [discriminate|]. intros [H|[= H]]; [discriminate H|contradiction].
Qed.

Lemma status_when_not_online (now : Z) (user : Js.Presence) :
  Js.truthyBool (Js.isOnline user) = false ->
  match Js.truthyString (Js.lastSeen user) with
  | None => Chat.getOnlineStatus now user = "Offline"
  | Some _ => Js.lastChar (Chat.getOnlineStatus now user) = Some "o"%char
  end.
Proof.
  intros Hoff. unfold Chat.getOnlineStatus. rewrite Hoff.
  destruct (Js.truthyString (Js.lastSeen user)) as [ls|]; [|reflexivity].
  cbv zeta. destruct (Js.lt _ 60); [|destruct (Js.lt _ 1440)];
    now rewrite lastChar_app by discriminate.
Qed.

(** X22.  The status text is "Online" exactly when [isOnline] is true, and
    "Offline" exactly when it is not and [lastSeen] is missing or empty.
    A [lastSeen] that does not parse as a date gives "NaNd ago", and one
    that lies in the future gives a negative count of minutes. *)
Theorem getOnlineStatus_edges (now : Z) (user : Js.Presence) :
  (Chat.getOnlineStatus now user = "Online" <-> Js.isOnline user = Some true) /\
  (Chat.getOnlineStatus now user = "Offline" <->
   Js.isOnline user <> Some true /\
   (Js.lastSeen user = None \/ Js.lastSeen user = Some "")) /\
  (forall ls, Js.isOnline user <> Some true -> Js.lastSeen user = Some ls ->
     ls <> "" -> Js.Date_parse ls = Js.NaN ->
     Chat.getOnlineStatus now user = "NaNd ago") /\
  (forall ls t, Js.isOnline user <> Some true -> Js.lastSeen user = Some ls ->
     ls <> "" -> Js.Date_parse ls = Js.Int t -> now < t ->
     exists digits,
       Chat.getOnlineStatus now user = String "-" digits ++ "m ago").
Proof.
  split; [|split; [|split]].
  - split; [|apply getOnlineStatus_online].
    intros H. apply truthyBool_true.
    destruct (Js.truthyBool (Js.isOnline user)) eqn:E; [reflexivity|].
    pose proof (status_when_not_online now user E) as Hs.
    destruct (Js.truthyString (Js.lastSeen user)); rewrite H in Hs;
      discriminate Hs.
  - split.
    + intros H.
      destruct (Js.truthyBool (Js.isOnline user)) eqn:E.
      * apply truthyBool_true in E.
        rewrite (getOnlineStatus_online now user E) in H. discriminate H.
      * split; [intros Ht; apply truthyBool_true in Ht; congruence|].
        apply truthyString_none.
        pose proof (status_when_not_online now user E) as Hs.
        destruct (Js.truthyString (Js.lastSeen user)); [|reflexivity].
        rewrite H in Hs. discriminate Hs.
    + intros [Hoff Hls].
      assert (E : Js.truthyBool (Js.isOnline user) = false).
      { destruct (Js.truthyBool (Js.isOnline user)) eqn:E; [|reflexivity].
        apply truthyBool_true in E. contradiction. }
      pose proof (status_when_not_online now user E) as Hs.
      apply truthyString_none in Hls. now rewrite Hls in Hs.
  - intros ls Hoff Hls Hne Hp. unfold Chat.getOnlineStatus.
    replace (Js.truthyBool (Js.isOnline user)) with false.
    2:{ symmetry. destruct (Js.truthyBool (Js.isOnline user)) eqn:E; [|reflexivity].
        apply truthyBool_true in E. contradiction. }
    rewrite Hls. simpl Js.truthyString.
    apply String.eqb_neq in Hne. rewrite Hne. cbv zeta. rewrite Hp. reflexivity.
  - intros ls t Hoff Hls Hne Hp Hlt.
    rewrite (getOnlineStatus_offline now user ls t Hoff Hls Hne Hp).
    unfold Spec.staleness.
    assert (Hm : (now - t) / 60000 < 0) by (apply Z.div_lt_upper_bound; lia).
    destruct (Z.ltb_spec ((now - t) / 60000) 60); [|lia].
    destruct (numToString_negative _ Hm) as [digits Hd].
    exists digits. now rewrite Hd.
Qed.

End StatusEdges.

Lemma getOnlineStatus_edges_witness :
  @Chat.getOnlineStatus Js.utcHost 1000
    {| Js.isOnline := Some false; Js.lastSeen := Some "yesterday" |} = "NaNd ago" /\
  @Chat.getOnlineStatus Js.utcHost 1000
    {| Js.isOnline := None; Js.lastSeen := Some "" |} = "Offline".
Proof.
  pose proof (@getOnlineStatus_edges Js.utcHost 1000
                {| Js.isOnline := Some false; Js.lastSeen := Some "yesterday" |})
    as (_ & _ & Hnan & _).
  pose proof (@getOnlineStatus_edges Js.utcHost 1000
                {| Js.isOnline := None; Js.lastSeen := Some "" |})
    as (_ & Hoff & _).
  split.
  - apply (Hnan "yesterday"); [discriminate|reflexivity|discriminate|reflexivity].
  - apply Hoff. split; [discriminate|now right].
Defined.

(** ** Emissions of a burst of keystrokes *)

Section BurstEmissions.
Import Chat.

Variable p : Props.
Variable c : string.
Hypothesis socket_present : socket p = true.
Hypothesis chat_open : chatId p = Some c.
Hypothesis chat_named : c <> "".

(** X23.  A burst of keystrokes less than a second apart, typed with no
    timer pending and followed by an idle period.  If the typing flag was
    down and the burst has two or more keystrokes, typing-started is
    emitted once, at the first keystroke, and typing-stopped once, one
    second after the last.  If the flag was already up (left up by an
    earlier burst of one keystroke), nothing is emitted at the keystrokes
    and typing-stopped is emitted once, one second after the last.  In
    both cases the flag ends down. *)
Theorem typing_burst_emissions
  (t1 : Z) (v1 : string) (rest : list (Z * string)) (st : State) :
  typingTimeout st = None -> Spec.spaced t1 rest ->
  (typing st = false -> rest <> [] ->
   snd (typeBurst p ((t1, v1) :: rest) st) =
     [(t1, Emit_typing_start c);
      (Spec.lastTime t1 rest + 1000, Emit_typing_stop c)] /\
   typing (fst (typeBurst p ((t1, v1) :: rest) st)) = false) /\
  (typing st = true ->
   snd (typeBurst p ((t1, v1) :: rest) st) =
     [(Spec.lastTime t1 rest + 1000, Emit_typing_stop c)] /\
   typing (fst (typeBurst p ((t1, v1) :: rest) st)) = false).
Proof.
  intros Hto Hsp. split.
  - intros Ht Hrest. destruct rest as [|[t2 v2] rest']; [contradiction|].
    exact (typeBurst_two_or_more p c socket_present chat_open chat_named
             t1 t2 v1 v2 rest' st Ht Hto Hsp).
  - intros Ht. rewrite typeBurst_split, keystrokes_cons.
    rewrite (elapse_none p t1 st Hto). cbn [fst snd].
    rewrite (onChange_next p t1 v1 st Ht). cbn [fst snd].
    set (st1 := setTypingTimeout _ _).
    destruct (keystrokes_in_burst p rest t1 true st1 Ht eq_refl Hsp)
      as (Hlog & Hty & Htm).
    rewrite (idle_pending p c socket_present chat_open chat_named _ _ Htm).
    cbn [closure_typing due]. rewrite Hlog.
    destruct rest; split; reflexivity.
Qed.

End BurstEmissions.

Section BurstEmissionsExample.
Import Chat.

Lemma typing_burst_emissions_witness :
  snd (typeBurst Sample.viewer [(0, "h"); (400, "he"); (900, "hey")]
         (Sample.ready "" false))
    = [(0, Emit_typing_start "c1"); (1900, Emit_typing_stop "c1")] /\
  snd (typeBurst Sample.viewer [(5000, "y"); (5300, "yo")] (Sample.ready "h" true))
    = [(6300, Emit_typing_stop "c1")].
Proof.
  assert (Hc : "c1" <> "") by discriminate.
  pose proof (typing_burst_emissions Sample.viewer "c1" eq_refl eq_refl Hc
                0 "h" [(400, "he"); (900, "hey")] (Sample.ready "" false)
                eq_refl) as H1.
  pose proof (typing_burst_emissions Sample.viewer "c1" eq_refl eq_refl Hc
                5000 "y" [(5300, "yo")] (Sample.ready "h" true) eq_refl) as H2.
  destruct H1 as [H1 _]; [simpl; lia|].
  destruct H2 as [_ H2]; [simpl; lia|].
  split.
  - now destruct (H1 eq_refl ltac:(discriminate)).
  - now destruct (H2 eq_refl).
Defined.

End BurstEmissionsExample.
